(** * pyasdf.fits_embed: ASDF documents embedded in a FITS container

    A shallow embedding of [pyasdf/fits_embed.py]: the block wrapper
    [_FitsBlock], the block manager [_EmbeddedBlockManager] that adds the
    [fits:NAME,VER] addressing scheme on top of the base block manager, and
    the document class [AsdfInFits] that packs the serialized document into
    the [ASDF] extension of an [HDUList]. *)

From Stdlib Require Import ZArith Lia Ascii String List.
From Stdlib.Strings Require Import Byte.
From stdpp Require Import base tactics option list strings pretty.

Local Open Scope string_scope.
Local Open Scope Z_scope.

(** ** Python values *)

(** Identity of a Python object, as compared by [is]. *)
Definition oid := nat.
Bind Scope nat_scope with oid.

(** A numpy array that owns its memory: the object and its bytes. *)
Record ndarray := { nd_id : oid; nd_bytes : list Byte.byte }.

(** An array as numpy has it: either an owner, or a view whose [.base] is
    another array. *)
Inductive np_array :=
  | Owner (a : ndarray)
  | View (id : oid) (base : np_array).

(** Modelled from the spec: the storage kinds of section 3.  Blocks in
    external files are left out of this development. *)
Inductive storage := Internal | Inline.

(** An array-like value handed to the block manager.  [arr_lazy] is
    [isinstance(arr, ndarray.NDArrayType)], the wrapper of an array read
    from a file; [arr_size] is its element count and [arr_storage] the
    storage requested for this one array, if any. *)
Record array := {
  arr_lazy : bool;
  arr_value : np_array;
  arr_size : nat;
  arr_storage : option storage
}.

(** Modelled from the spec: [util.get_array_base], the buffer identity
    resolver of section 4.1 (the module [util] is not part of the examined
    sources).  It follows the [.base] chain of a view down to the array that
    owns the memory, so that every view over one buffer resolves to the same
    object. *)
Fixpoint np_base (a : np_array) : ndarray :=
  match a with
  | Owner o => o
  | View _ b => np_base b
  end.

Definition get_array_base (arr : array) : ndarray := np_base (arr_value arr).

(** ** Exceptions *)

(** The exception classes that occur: the builtin ones the module raises or
    catches, [OSError] for the file system, and [AddressError], which the
    specification gives to the base registry. *)
Inductive exn :=
  | KeyError
  | IndexError
  | AttributeError
  | ValueError (msg : string)
  | NotImplementedError (msg : string)
  | OSError
  | AddressError.

Definition result (A : Type) : Type := exn + A.

(** ** Names as the host container compares them *)

(** The names of a FITS file are ASCII.  [str.isspace] on ASCII: the
    characters 9 to 13, 28 to 31 and the blank. *)
Definition is_space (c : ascii) : bool :=
  let n := nat_of_ascii c in
  (((9 <=? n) && (n <=? 13)) || ((28 <=? n) && (n <=? 32)))%nat.

(** [s.lstrip()], [s.rstrip()] and [s.strip()] *)
Fixpoint lstrip (s : string) : string :=
  match s with
  | EmptyString => EmptyString
  | String c s' => if is_space c then lstrip s' else s
  end.

Fixpoint rstrip (s : string) : string :=
  match s with
  | EmptyString => EmptyString
  | String c s' =>
      match rstrip s' with
      | EmptyString => if is_space c then EmptyString else String c EmptyString
      | r => String c r
      end
  end.

Definition strip (s : string) : string := rstrip (lstrip s).

(** [s.upper()] on ASCII *)
Definition upper_char (c : ascii) : ascii :=
  let n := nat_of_ascii c in
  if ((97 <=? n) && (n <=? 122))%nat then ascii_of_nat (n - 32) else c.

Fixpoint upper (s : string) : string :=
  match s with
  | EmptyString => EmptyString
  | String c s' => String (upper_char c) (upper s')
  end.

(** [s.strip().upper()] *)
Definition normalise (s : string) : string := upper (strip s).

(** ** The host container: [astropy.io.fits.HDUList] *)

(** An HDU object: its identity, [EXTNAME], [EXTVER] and data array.  Two
    records with one [hdu_id] are the same object; [hdu is x] compares the
    identities. *)
Record HDU := {
  hdu_id : oid;
  hdu_name : string;
  hdu_ver : Z;
  hdu_data : ndarray
}.

Definition HDUList := list HDU.

(** The keys the module indexes an [HDUList] with: [name] or [(name, ver)]. *)
Inductive hdu_key :=
  | KeyName (name : string)
  | KeyNameVer (name : string) (ver : Z).

Definition key_name (k : hdu_key) : string :=
  match k with
  | KeyName n => n
  | KeyNameVer n _ => n
  end.

Definition key_ver (k : hdu_key) : option Z :=
  match k with
  | KeyName _ => None
  | KeyNameVer _ v => Some v
  end.

(** The test that [HDUList.index_of] makes on the HDU at position [idx]:
    [(name == _key or (_key == 'PRIMARY' and idx == 0)) and (_ver is None or
    _ver == hdu.ver)], with [name = hdu.name.strip().upper()] and
    [_key = key.strip().upper()]. *)
Definition answers (idx : nat) (k : hdu_key) (hdu : HDU) : bool :=
  let _key := normalise (key_name k) in
  (bool_decide (normalise (hdu_name hdu) = _key)
   || (bool_decide (_key = "PRIMARY") && Nat.eqb idx 0))
  && match key_ver k with
     | None => true
     | Some _ver => bool_decide (_ver = hdu_ver hdu)
     end.

(** The loop of [index_of] over [enumerate(self)], from position [idx] on:
    the first HDU that passes the test. *)
Fixpoint index_of_from (idx : nat) (k : hdu_key) (hl : HDUList) : option HDU :=
  match hl with
  | [] => None
  | hdu :: rest =>
      if answers idx k hdu then Some hdu else index_of_from (S idx) k rest
  end.

(** [hdulist[key]] for these keys: the HDU that [index_of] finds; [KeyError]
    when it finds none. *)
Definition hdulist_getitem (hl : HDUList) (k : hdu_key) : result HDU :=
  match index_of_from 0 k hl with
  | Some h => inr h
  | None => inl KeyError
  end.

(** [hdu in hdulist] by identity, as the loop [for hdu in self._hdulist: if
    hdu is x] finds it: the first section that is the object [i]. *)
Definition find_hdu_is (hl : HDUList) (i : oid) : option HDU :=
  List.find (fun h => bool_decide (hdu_id h = i)) hl.

(** ** Strings: [startswith], slices, [re.match], [int] and [format] *)

Definition startswith (s p : string) : bool := String.prefix p s.

(** [s[n:]] *)
Fixpoint slice_from (n : nat) (s : string) : string :=
  match n, s with
  | O, _ => s
  | S n', String _ s' => slice_from n' s'
  | S _, EmptyString => EmptyString
  end.

(** Every character of [s] is in the class [p]. *)
Fixpoint all_in (p : ascii -> bool) (s : string) : bool :=
  match s with
  | EmptyString => true
  | String c s' => p c && all_in p s'
  end.

(** The character class [[0-9]]. *)
Definition is_digit (c : ascii) : bool :=
  let n := nat_of_ascii c in ((48 <=? n) && (n <=? 57))%nat.

(** The character class [[A-Z0-9]]. *)
Definition is_upper_or_digit (c : ascii) : bool :=
  let n := nat_of_ascii c in
  (((65 <=? n) && (n <=? 90)) || ((48 <=? n) && (n <=? 57)))%nat.

(** The longest prefix of [s] in the class [p], and what follows it: a greedy
    [[...]*]. *)
Fixpoint span (p : ascii -> bool) (s : string) : string * string :=
  match s with
  | EmptyString => (EmptyString, EmptyString)
  | String c s' =>
      if p c then let '(a, b) := span p s' in (String c a, b)
      else (EmptyString, s)
  end.

(** What a greedy class stops at: the end, or a character outside it. *)
Definition stops (p : ascii -> bool) (s : string) : Prop :=
  match s with
  | EmptyString => True
  | String c _ => p c = false
  end.

(** Text after a name that the version group cannot take: it does not go on
    with the name, and is not a comma with a digit after it. *)
Definition no_version (junk : string) : Prop :=
  stops is_upper_or_digit junk /\
  forall rest, junk = String "," rest -> stops is_digit rest.

(** A string without a comma. *)
Definition not_comma (c : ascii) : bool :=
  negb (Nat.eqb (nat_of_ascii c) 44).

Definition comma_free (s : string) : bool := all_in not_comma s.

(** The groups of a successful match. *)
Record re_groups := { group_name : string; group_ver : option string }.

(** [re.match('(?P<name>[A-Z0-9]+)(,(?P<ver>[0-9]+))?', s)].  [re.match]
    anchors the pattern at the start of [s] only.  The name is greedy and what
    follows it is optional, so the first try of the matcher succeeds whenever
    [s] starts with a character of the class: the name is the longest such
    prefix, and the version group takes part only if a comma and at least one
    digit follow. *)
Definition re_match_source (s : string) : option re_groups :=
  let '(name, rest) := span is_upper_or_digit s in
  match name with
  | EmptyString => None
  | _ =>
      match rest with
      | String "," rest' =>
          let '(ver, _) := span is_digit rest' in
          match ver with
          | EmptyString => Some {| group_name := name; group_ver := None |}
          | _ => Some {| group_name := name; group_ver := Some ver |}
          end
      | _ => Some {| group_name := name; group_ver := None |}
      end
  end.

(** [int(s)] on a string of decimal digits. *)
Definition digit_value (c : ascii) : Z := Z.of_nat (nat_of_ascii c) - 48.

Fixpoint int_acc (acc : Z) (s : string) : Z :=
  match s with
  | EmptyString => acc
  | String c s' => int_acc (10 * acc + digit_value c) s'
  end.

Definition int_of_digits (s : string) : Z := int_acc 0 s.

(** ['fits:{0},{1}'.format(name, ver)]; [pretty] prints an integer in decimal
    with a leading minus sign when negative, as [format] does. *)
Definition format_fits (name : string) (ver : Z) : string :=
  "fits:" +:+ name +:+ "," +:+ pretty ver.

(** ** Blocks, sources and documents *)

(** Modelled from the spec: [block.Block], the block of the base format
    (section 3; the module [block] is not part of the examined sources): the
    object, the buffer it is bound to, its payload and its storage kind. *)
Record Block := {
  blk_id : oid;
  blk_base : oid;
  blk_data : list Byte.byte;
  blk_storage : storage
}.

(** A block as a manager hands it out: an instance of [_FitsBlock], which is
    an object of its own and holds the HDU it wraps in [_hdu], or a block of
    the base format. *)
Inductive block :=
  | FitsBlock (id : oid) (_hdu : HDU)
  | BaseBlock (b : Block).

Definition block_id (b : block) : oid :=
  match b with
  | FitsBlock i _ => i
  | BaseBlock b => blk_id b
  end.

(** [_FitsBlock.data], [_FitsBlock.__len__] and [_FitsBlock.array_storage]. *)
Definition FitsBlock_data (_hdu : HDU) : ndarray := hdu_data _hdu.
Definition FitsBlock_array_storage (_hdu : HDU) : string := "fits".

(** [_FitsBlock.__repr__]: ['<FitsBlock {0},{1}>'.format(name, ver)]. *)
Definition FitsBlock_repr (_hdu : HDU) : string :=
  "<FitsBlock " +:+ hdu_name _hdu +:+ "," +:+ pretty (hdu_ver _hdu) +:+ ">".

(** The HDU a wrapper holds; a block of the base format holds none. *)
Definition block_hdu (b : block) : option HDU :=
  match b with
  | FitsBlock _ _hdu => Some _hdu
  | BaseBlock _ => None
  end.

(** A source identifier: Python passes an [int] or a [str]. *)
Inductive source :=
  | SrcInt (i : Z)
  | SrcStr (s : string).

(** Modelled from the spec: the document tree of section 1 (maps, sequences,
    scalars), as far as the block layer looks into it; the tree layer is not
    part of the examined sources. *)
#[warnings="-register-all"]
Inductive tree :=
  | Scalar (v : string)
  | Arr (a : array)
  | Node (children : list tree).

(** The write options that every method of [AsdfInFits] passes along. *)
Record options := {
  all_array_storage : option storage;
  all_array_compression : option string;
  auto_inline : option nat;
  pad_blocks : bool
}.

(** The state of an [AsdfFile] object, with the allocator of object
    identities: [st_next] is the identity the next new object gets,
    [st_blocks] the internal blocks of the base manager in their order. *)
Record state := {
  st_next : oid;
  st_tree : tree;
  st_uri : option string;
  st_blocks : list Block
}.

(** ** Computations that may raise and that change a state *)

Definition ST (S A : Type) : Type := S -> result A * S.

Global Instance ST_ret {S} : MRet (ST S) := fun A x s => (inr x, s).
Global Instance ST_bind {S} : MBind (ST S) := fun A B f m s =>
  match m s with
  | (inr x, s') => f x s'
  | (inl e, s') => (inl e, s')
  end.

Definition raise {S A} (e : exn) : ST S A := fun s => (inl e, s).

Definition lift_result {S A} (r : result A) : ST S A := fun s => (r, s).

(** [try: m except (KeyError, IndexError, AttributeError): h else: k] *)
Definition lookup_failed (e : exn) : bool :=
  match e with
  | KeyError | IndexError | AttributeError => true
  | _ => false
  end.

Definition try_lookup {S A B} (m : ST S A) (h : ST S B) (k : A -> ST S B) : ST S B :=
  fun s =>
    match m s with
    | (inr x, s') => k x s'
    | (inl e, s') => if lookup_failed e then h s' else (inl e, s')
    end.

Definition D := ST state.

(** A constructor call: the new object gets an identity no other has. *)
Definition allocated (s : state) : state :=
  {| st_next := S (st_next s); st_tree := st_tree s;
     st_uri := st_uri s; st_blocks := st_blocks s |}.

Definition alloc : D oid := fun s => (inr (st_next s), allocated s).

(** ** Block managers *)

(** The three methods of a block manager that [_EmbeddedBlockManager]
    overrides; [super] below is such a record. *)
Record manager := {
  mgr_get_block : source -> D block;
  mgr_get_source : block -> D source;
  mgr_find_or_create_block_for_array : array -> options -> D block
}.

(** The section [find_or_create_block_for_array] wraps for an array: the first
    one whose data array is the base of the array, for an array that is not an
    [NDArrayType]. *)
Definition aliases (arr : array) (hdu : HDU) : bool :=
  bool_decide (nd_id (get_array_base arr) = nd_id (hdu_data hdu)).

Definition hosted (hdulist : HDUList) (arr : array) : option HDU :=
  if arr_lazy arr then None else List.find (aliases arr) hdulist.

(** Where a block of the registry comes from, after the arrays [arrs] were
    resolved: it was there before, or it is bound to the base of one of the
    arrays that the adapter did not wrap. *)
Definition accounted (hdulist : HDUList) (before : state) (arrs : list array)
    (b : Block) : Prop :=
  In b (st_blocks before) \/
  exists arr, In arr arrs /\ hosted hdulist arr = None /\
              blk_base b = nd_id (get_array_base arr).

(** A container that holds the object [hdu] once, and in which no other
    section passes the test of the lookup for its name and version. *)
Definition held_once (hdulist : HDUList) (hdu : HDU) : Prop :=
  forall h, In h hdulist -> hdu_id h = hdu_id hdu -> h = hdu.

Definition named_once (hdulist : HDUList) (hdu : HDU) : Prop :=
  forall idx h,
    nth_error hdulist idx = Some h ->
    answers idx (KeyNameVer (hdu_name hdu) (hdu_ver hdu)) h = true -> h = hdu.

(** [m.get_block(m.get_source(b))]: naming a block and resolving the name. *)
Definition reresolve (m : manager) (b : block) : D block :=
  src ← mgr_get_source m b; mgr_get_block m src.

Module EmbeddedBlockManager.
Section Methods.
(** [super(_EmbeddedBlockManager, self)] and [self._hdulist]. *)
Variable super : manager.
Variable hdulist : HDUList.

(** [_FitsBlock(hdu)] *)
Definition new_FitsBlock (hdu : HDU) : D block :=
  i ← alloc; mret (FitsBlock i hdu).

Definition get_block (src : source) : D block :=
  match src with
  | SrcStr s =>
      if startswith s "fits:" then
        match re_match_source (slice_from 5 s) with
        | Some parts =>
            let name := group_name parts in
            let pair :=
              match group_ver parts with
              | Some v => KeyNameVer name (int_of_digits v)
              | None => KeyName name
              end in
            hdu ← lift_result (hdulist_getitem hdulist pair);
            new_FitsBlock hdu
        | None => mgr_get_block super src
        end
      else mgr_get_block super src
  | SrcInt _ => mgr_get_block super src
  end.

Definition get_source (b : block) : D source :=
  match b with
  | FitsBlock _ _hdu =>
      match find_hdu_is hdulist (hdu_id _hdu) with
      | Some hdu => mret (SrcStr (format_fits (hdu_name hdu) (hdu_ver hdu)))
      | None => raise (ValueError "FITS block seems to have been removed")
      end
  | BaseBlock _ => mgr_get_source super b
  end.

Definition find_or_create_block_for_array (arr : array) (ctx : options) : D block :=
  if negb (arr_lazy arr) then
    let base := get_array_base arr in
    match List.find (fun hdu => bool_decide (nd_id base = nd_id (hdu_data hdu))) hdulist with
    | Some hdu => new_FitsBlock hdu
    | None => mgr_find_or_create_block_for_array super arr ctx
    end
  else mgr_find_or_create_block_for_array super arr ctx.

Definition as_manager : manager := {|
  mgr_get_block := get_block;
  mgr_get_source := get_source;
  mgr_find_or_create_block_for_array := find_or_create_block_for_array
  |}.
End Methods.
End EmbeddedBlockManager.

(** ** The base block manager *)

Module BlockManager.

(** Modelled from the spec: the internal blocks of section 3, those stored in
    the document's own block section, in registry order; integer sources are
    positions in this sequence. *)
Definition internal_blocks (s : state) : list Block :=
  List.filter (fun b => match blk_storage b with Internal => true | Inline => false end)
    (st_blocks s).

(** Modelled from the spec: the index a source stands for in the base
    resolution of section 4.2, an integer itself, a string when [int] parses
    it as a non-negative number. *)
Definition index_of_source (src : source) : option Z :=
  match src with
  | SrcInt i => Some i
  | SrcStr str =>
      match str with
      | EmptyString => None
      | _ => if all_in is_digit str then Some (int_of_digits str) else None
      end
  end.

(** Modelled from the spec: [BlockManager.get_block], the [resolve] of
    section 4.2.  An integer source indexes the ordered sequence of internal
    blocks, bounds-checked; a string source falls back to integer parsing;
    what does not resolve fails with an [AddressError]. *)
Definition get_block (src : source) : D block := fun s =>
  match index_of_source src with
  | Some i =>
      if i <? 0 then (inl AddressError, s)
      else match nth_error (internal_blocks s) (Z.to_nat i) with
           | Some b => (inr (BaseBlock b), s)
           | None => (inl AddressError, s)
           end
  | None => (inl AddressError, s)
  end.

(** The position of the object [i] in a sequence of blocks. *)
Fixpoint index_is (i : oid) (bs : list Block) : option nat :=
  match bs with
  | [] => None
  | b :: bs' =>
      if bool_decide (blk_id b = i) then Some O
      else option_map S (index_is i bs')
  end.

(** Modelled from the spec: [BlockManager.get_source], the [identify] of
    section 4.2: the positional index of an internally stored block, an
    [AddressError] for a block that is not a member of the registry. *)
Definition get_source (b : block) : D source := fun s =>
  match b with
  | BaseBlock bb =>
      match index_is (blk_id bb) (internal_blocks s) with
      | Some n => (inr (SrcInt (Z.of_nat n)), s)
      | None => (inl AddressError, s)
      end
  | FitsBlock _ _ => (inl AddressError, s)
  end.

(** Modelled from the spec: the storage policy of section 4.3, the array's
    own override, then the document-wide one, then the inlining threshold
    (exclusive), then internal. *)
Definition choose_storage (arr : array) (ctx : options) : storage :=
  match arr_storage arr with
  | Some k => k
  | None =>
      match all_array_storage ctx with
      | Some k => k
      | None =>
          match auto_inline ctx with
          | Some t => if (arr_size arr <? t)%nat then Inline else Internal
          | None => Internal
          end
      end
  end.

(** Modelled from the spec: [BlockManager.find_or_create_block_for_array]
    (section 4.3): the block already bound to the array's buffer, or a new
    block, registered in the registry. *)
Definition find_or_create_block_for_array (arr : array) (ctx : options) : D block :=
  fun s =>
    let base := get_array_base arr in
    match List.find (fun b => bool_decide (blk_base b = nd_id base)) (st_blocks s) with
    | Some b => (inr (BaseBlock b), s)
    | None =>
        let b := {| blk_id := st_next s; blk_base := nd_id base;
                    blk_data := nd_bytes base;
                    blk_storage := choose_storage arr ctx |} in
        (inr (BaseBlock b),
         {| st_next := S (st_next s); st_tree := st_tree s;
            st_uri := st_uri s; st_blocks := (st_blocks s ++ [b])%list |})
    end.

Definition as_manager : manager := {|
  mgr_get_block := get_block;
  mgr_get_source := get_source;
  mgr_find_or_create_block_for_array := find_or_create_block_for_array
|}.

End BlockManager.

(** ** The base document class *)

(** Modelled from the spec: what the tree emission of sections 2 and 4.3 puts
    in the place of an array, a reference to its block, or the literal values
    of an inline array. *)
Inductive descriptor :=
  | DescSource (src : source)
  | DescInline (data : list Byte.byte).

(** The methods of [asdf.AsdfFile] that [AsdfInFits] calls through [super] or
    [cls]: [write_to], which returns the bytes it wrote to the buffer it was
    given, and [_read_impl], which decodes a byte stream into a document
    bound to a host container. *)
Record document_class := {
  cls_write_to : manager -> options -> D (list Byte.byte);
  cls_read_impl : state -> HDUList -> list Byte.byte -> option string -> bool -> result state
}.

Module AsdfFile.

(** Modelled from the spec: [AsdfFile.__init__(tree=tree, uri=uri)] (the
    module [asdf] is not part of the examined sources): a document without
    blocks; no tree is the empty tree. *)
Definition empty_tree : tree := Node [].

Definition init (next : oid) (t : option tree) (uri : option string) : state :=
  {| st_next := next;
     st_tree := match t with Some t => t | None => empty_tree end;
     st_uri := uri;
     st_blocks := [] |}.

(** Modelled from the spec: the array values of a tree, in the order the
    traversal of section 2 visits them. *)
Fixpoint arrays_of (t : tree) : list array :=
  match t with
  | Scalar _ => []
  | Arr a => [a]
  | Node ts => List.flat_map arrays_of ts
  end.

Section Write.
(** The block manager of the document, [self._blocks]. *)
Variable blocks : manager.
Variable ctx : options.

(** Modelled from the spec: the traversal of section 2.  Every array value
    is resolved to a block by the manager, and replaced by the source
    identifier of that block, or by its literal values when the block is
    stored inline. *)
Definition describe (arr : array) : D descriptor :=
  b ← mgr_find_or_create_block_for_array blocks arr ctx;
  match b with
  | BaseBlock {| blk_storage := Inline; blk_data := data |} =>
      mret (DescInline data)
  | _ => src ← mgr_get_source blocks b; mret (DescSource src)
  end.

Fixpoint describe_all (arrs : list array) : D (list descriptor) :=
  match arrs with
  | [] => mret []
  | arr :: rest =>
      d ← describe arr; ds ← describe_all rest; mret (d :: ds)
  end.

(** The encoding of the tree and of the block section is the business of
    the tree layer and of the on-disk format. *)
Variable encode : tree -> list descriptor -> list Block -> options -> list Byte.byte.

(** Modelled from the spec: [AsdfFile.write_to] (section 4.4): traverse
    the tree, then emit the tree with its descriptors and the internal
    blocks in registry order. *)
Definition write_to : D (list Byte.byte) := fun s =>
  match describe_all (arrays_of (st_tree s)) s with
  | (inr ds, s') =>
      (inr (encode (st_tree s') ds (BlockManager.internal_blocks s') ctx), s')
  | (inl e, s') => (inl e, s')
  end.
End Write.

End AsdfFile.

(** ** The embedded document class *)

Module AsdfInFits.

Definition ASDF_EXTENSION_NAME : string := "ASDF".

(** An [AsdfInFits] object with the world it acts on: the document state it
    inherits, the host container [self._hdulist], and the files written. *)
Record t := {
  asdf : state;
  _hdulist : HDUList;
  files : list (string * HDUList)
}.

Definition W := ST t.

(** [AsdfInFits.__init__(hdulist, tree=None, uri=uri)]: no container is a
    new, empty [HDUList]. *)
Definition init (next : oid) (hdulist : option HDUList) (tr : option tree)
    (uri : option string) (fs : list (string * HDUList)) : t :=
  {| asdf := AsdfFile.init next tr uri;
     _hdulist := match hdulist with Some hl => hl | None => [] end;
     files := fs |}.

(** A method of the base class run on [self]: it sees the host container
    through the block manager only. *)
Definition on_asdf {A} (m : HDUList -> D A) : W A := fun self =>
  let '(r, st) := m (_hdulist self) (asdf self) in
  (r, {| asdf := st; _hdulist := _hdulist self; files := files self |}).

Definition getitem (k : hdu_key) : W HDU := fun self =>
  (hdulist_getitem (_hdulist self) k, self).

(** [self._hdulist.append(hdu)] *)
Definition append (hdu : HDU) : W unit := fun self =>
  (inr tt, {| asdf := asdf self; _hdulist := (_hdulist self ++ [hdu])%list;
              files := files self |}).

(** [hdu.data = array]: the HDU object changes, wherever the container
    holds it. *)
Definition with_data (array : ndarray) (h : HDU) : HDU :=
  {| hdu_id := hdu_id h; hdu_name := hdu_name h; hdu_ver := hdu_ver h;
     hdu_data := array |}.

Definition set_data (hdu : HDU) (array : ndarray) : W unit := fun self =>
  (inr tt,
   {| asdf := asdf self;
      _hdulist :=
        List.map (fun h => if bool_decide (hdu_id h = hdu_id hdu)
                           then with_data array h else h) (_hdulist self);
      files := files self |}).

(** [np.frombuffer(bytes, np.uint8)]: a new array over the bytes. *)
Definition frombuffer (bytes : list Byte.byte) : W ndarray :=
  on_asdf (fun _ => i ← alloc; mret {| nd_id := i; nd_bytes := bytes |}).

(** [fits.ImageHDU(array, name=name)]: a new HDU; its version is 1 when no
    [EXTVER] is given. *)
Definition ImageHDU (array : ndarray) (name : string) : W HDU :=
  on_asdf (fun _ => i ← alloc;
    mret {| hdu_id := i; hdu_name := name; hdu_ver := 1; hdu_data := array |}).

(** [self._hdulist.writeto(filename)]: refuses to overwrite a file. *)
Definition writeto (filename : string) : W unit := fun self =>
  if existsb (fun f => bool_decide (fst f = filename)) (files self)
  then (inl OSError, self)
  else (inr tt, {| asdf := asdf self; _hdulist := _hdulist self;
                   files := (filename, _hdulist self) :: files self |}).

Section Methods.
(** [super(AsdfInFits, self)], and [cls] for [_read_impl]; [base] is the
    block manager class that [_EmbeddedBlockManager] extends. *)
Variable super : document_class.
Variable base : manager.

(** [self._blocks], the manager made in [__init__]. *)
Definition _blocks (hdulist : HDUList) : manager :=
  EmbeddedBlockManager.as_manager base hdulist.

Definition read (next : oid) (hdulist : HDUList) (uri : option string)
    (validate_checksums : bool) (fs : list (string * HDUList)) : result t :=
  match hdulist_getitem hdulist (KeyName ASDF_EXTENSION_NAME) with
  | inl e =>
      if lookup_failed e then inr (init next (Some hdulist) None uri fs)
      else inl e
  | inr asdf_extension =>
      let self := init next (Some hdulist) None None fs in
      let buff := nd_bytes (hdu_data asdf_extension) in
      match cls_read_impl super (asdf self) (_hdulist self) buff uri
              validate_checksums with
      | inr st => inr {| asdf := st; _hdulist := _hdulist self; files := fs |}
      | inl e => inl e
      end
  end.

Definition _update_asdf_extension (ctx : options) : W unit :=
  buff ← on_asdf (fun hdulist => cls_write_to super (_blocks hdulist) ctx);
  array ← frombuffer buff;
  try_lookup (getitem (KeyName ASDF_EXTENSION_NAME))
    (hdu ← ImageHDU array ASDF_EXTENSION_NAME; append hdu)
    (fun asdf_extension => set_data asdf_extension array).

Definition write_to (filename : string) (ctx : options) : W unit :=
  _ ← _update_asdf_extension ctx;
  writeto filename.

Definition update (ctx : options) : W unit :=
  _update_asdf_extension ctx.

Definition write_to_stream (data : list Byte.byte) : W unit :=
  raise (NotImplementedError
           "Can not stream data to an ASDF file embedded in a FITS file").
End Methods.

End AsdfInFits.

(** ** Scenarios *)

Module Scenario.

(** A host container with a primary HDU and the section [SCI], version 1,
    holding the array [x]. *)
Definition x : ndarray := {| nd_id := 10; nd_bytes := ["1"%byte; "2"%byte; "3"%byte] |}.
Definition primary : HDU :=
  {| hdu_id := 1; hdu_name := "PRIMARY"; hdu_ver := 1;
     hdu_data := {| nd_id := 11; nd_bytes := [] |} |}.
Definition sci : HDU :=
  {| hdu_id := 2; hdu_name := "SCI"; hdu_ver := 1; hdu_data := x |}.
Definition hdulist : HDUList := [primary; sci].

(** A section whose name has a character outside [[A-Z0-9]]. *)
Definition sci_data : HDU :=
  {| hdu_id := 3; hdu_name := "SCI_DATA"; hdu_ver := 1;
     hdu_data := {| nd_id := 12; nd_bytes := ["7"%byte] |} |}.

(** A section named [PRIMARY] that is not the first of its container, and a
    section whose name is held in lower case with blanks around it. *)
Definition late_primary : HDU :=
  {| hdu_id := 8; hdu_name := "PRIMARY"; hdu_ver := 1;
     hdu_data := {| nd_id := 19; nd_bytes := [] |} |}.
Definition lower_case : HDU :=
  {| hdu_id := 9; hdu_name := " sci "; hdu_ver := 1;
     hdu_data := {| nd_id := 23; nd_bytes := [] |} |}.

(** A section [ASDF] holding an earlier payload. *)
Definition asdf_hdu : HDU :=
  {| hdu_id := 4; hdu_name := "ASDF"; hdu_ver := 1;
     hdu_data := {| nd_id := 15; nd_bytes := ["o"%byte; "l"%byte; "d"%byte] |} |}.

(** A section whose name the container compares as [ASDF]. *)
Definition asdf_lower : HDU :=
  {| hdu_id := 25; hdu_name := "asdf "; hdu_ver := 1;
     hdu_data := {| nd_id := 26; nd_bytes := ["l"%byte; "o"%byte] |} |}.

(** A document with an empty tree and no blocks; the next object is 20. *)
Definition empty : state := AsdfFile.init 20 None None.

(** A registry holding two internal blocks. *)
Definition b0 : Block :=
  {| blk_id := 30; blk_base := 40; blk_data := ["a"%byte]; blk_storage := Internal |}.
Definition b1 : Block :=
  {| blk_id := 31; blk_base := 41; blk_data := ["b"%byte]; blk_storage := Internal |}.
Definition two_blocks : state :=
  {| st_next := 50; st_tree := AsdfFile.empty_tree; st_uri := None;
     st_blocks := [b0; b1] |}.

(** A plain array that is a view over [x], and the wrapper of an array read
    from a file whose memory is [x] as well. *)
Definition view_of_x : array :=
  {| arr_lazy := false; arr_value := View 13 (Owner x); arr_size := 3;
     arr_storage := None |}.
Definition lazy_over_x : array :=
  {| arr_lazy := true; arr_value := View 14 (Owner x); arr_size := 3;
     arr_storage := None |}.

(** A document whose tree holds scalars and the one array [view_of_x]. *)
Definition one_array : state :=
  AsdfFile.init 20
    (Some (Node [Scalar "meta"; Node [Arr view_of_x]; Scalar "end"])) None.

Definition defaults : options :=
  {| all_array_storage := None; all_array_compression := None;
     auto_inline := None; pad_blocks := false |}.

(** A base document class whose [write_to] is the modelled one over a toy
    encoding (a byte per descriptor, then the payloads of the internal
    blocks), and whose [_read_impl] keeps the document as it is. *)
Definition encode (t : tree) (ds : list descriptor) (bs : list Block)
    (ctx : options) : list Byte.byte :=
  (List.map (fun _ => "#"%byte) ds ++ List.flat_map blk_data bs)%list.
Definition cls : document_class :=
  {| cls_write_to := fun blocks ctx => AsdfFile.write_to blocks ctx encode;
     cls_read_impl := fun st _ _ _ _ => inr st |}.

(** A base document class whose [write_to] fails. *)
Definition failing : document_class :=
  {| cls_write_to := fun _ _ => raise (ValueError "unknown codec");
     cls_read_impl := fun st _ _ _ _ => inr st |}.

Definition self : AsdfInFits.t :=
  {| AsdfInFits.asdf := empty; AsdfInFits._hdulist := hdulist;
     AsdfInFits.files := [] |}.

(** The document with one hosted array, in a container that already has an
    [ASDF] section. *)
Definition embedded : AsdfInFits.t :=
  {| AsdfInFits.asdf := one_array;
     AsdfInFits._hdulist := [primary; sci; asdf_hdu];
     AsdfInFits.files := [] |}.

(** A document whose tree holds two arrays over the memory of the section
    [SCI], a plain view and an array read from a file, in the container
    [hdulist]. *)
Definition two_arrays : state :=
  AsdfFile.init 20 (Some (Node [Arr view_of_x; Arr lazy_over_x])) None.
Definition shared : AsdfInFits.t :=
  {| AsdfInFits.asdf := two_arrays; AsdfInFits._hdulist := hdulist;
     AsdfInFits.files := [] |}.

(** Sections that share a name: two with the same version, and two with
    negative versions. *)
Definition sci_again : HDU :=
  {| hdu_id := 5; hdu_name := "SCI"; hdu_ver := 1;
     hdu_data := {| nd_id := 16; nd_bytes := ["9"%byte] |} |}.
Definition err_2 : HDU :=
  {| hdu_id := 6; hdu_name := "ERR"; hdu_ver := -2;
     hdu_data := {| nd_id := 17; nd_bytes := [] |} |}.
Definition err_1 : HDU :=
  {| hdu_id := 7; hdu_name := "ERR"; hdu_ver := -1;
     hdu_data := {| nd_id := 18; nd_bytes := [] |} |}.

End Scenario.

(** * Properties *)

(** ** Strings *)

Section Strings.
Implicit Types (s a b : string) (p : ascii -> bool) (c : ascii).

Lemma span_app p a b :
  all_in p a = true -> stops p b -> span p (a +:+ b) = (a, b).
Proof.
  induction a as [|c a IH]; simpl; intros Ha Hb.
  - destruct b as [|c b]; simpl in *; [done|]. by rewrite Hb.
  - apply andb_true_iff in Ha as [Hc Ha]. by rewrite Hc, IH.
Qed.

Lemma span_spec p s a b :
  span p s = (a, b) -> s = a +:+ b /\ all_in p a = true /\ stops p b.
Proof.
  revert a b. induction s as [|c s IH]; simpl; intros a b.
  - by intros [= <- <-].
  - destruct (p c) eqn:Hc.
    + destruct (span p s) as [a' b']. intros [= <- <-].
      destruct (IH a' b' eq_refl) as (-> & Ha & Hb). simpl. by rewrite Hc, Ha.
    + intros [= <- <-]. done.
Qed.

Lemma span_all p a : all_in p a = true -> span p a = (a, EmptyString).
Proof.
  induction a as [|c a IH]; simpl; [done|].
  intros [Hc Ha]%andb_true_iff. by rewrite Hc, IH.
Qed.
End Strings.

Section Append.
Implicit Types (a b c : string) (x : ascii).

Lemma append_cons x a b : String x a +:+ b = String x (a +:+ b).
Proof. reflexivity. Qed.

Lemma append_nil_r a : a +:+ "" = a.
Proof. induction a as [|x a IH]; [done|]. by rewrite append_cons, IH. Qed.

Lemma append_assoc a b c : (a +:+ b) +:+ c = a +:+ b +:+ c.
Proof. induction a as [|x a IH]; [done|]. by rewrite !append_cons, IH. Qed.

Lemma all_in_app p a b : all_in p (a +:+ b) = all_in p a && all_in p b.
Proof.
  induction a as [|x a IH]; [done|].
  rewrite append_cons. simpl. by rewrite IH, andb_assoc.
Qed.

Lemma int_acc_app acc a b : int_acc acc (a +:+ b) = int_acc (int_acc acc a) b.
Proof.
  revert acc. induction a as [|x a IH]; intros; [done|].
  rewrite append_cons. simpl. by rewrite IH.
Qed.
End Append.

(** ** Decimal numerals: [int] undoes [format] *)

Section Decimal.

Lemma is_digit_pretty_N_char d : is_digit (pretty_N_char d) = true.
Proof. unfold pretty_N_char. by repeat case_match. Qed.

Lemma digit_value_pretty_N_char d :
  (d < 10)%N -> digit_value (pretty_N_char d) = Z.of_N d.
Proof.
  intros Hd.
  assert (d = 0 \/ d = 1 \/ d = 2 \/ d = 3 \/ d = 4 \/ d = 5 \/ d = 6 \/
          d = 7 \/ d = 8 \/ d = 9)%N as Hcases by lia.
  destruct_or!; subst; reflexivity.
Qed.

(** [pretty_N_go x s] puts the digits of [x] in front of [s]. *)
Lemma pretty_N_go_digits (x : N) :
  exists d : string,
    (forall s, pretty_N_go x s = d +:+ s) /\
    all_in is_digit d = true /\
    int_of_digits d = Z.of_N x /\
    ((0 < x)%N -> d <> "").
Proof.
  induction (N.lt_wf_0 x) as [x _ IH].
  destruct (decide (x = 0%N)) as [->|Hx].
  { exists "". repeat split; try done. }
  assert (0 < x)%N as Hpos by lia.
  destruct (IH (x `div` 10)%N) as (d & Hgo & Hall & Hint & _).
  { apply N.div_lt; lia. }
  exists (d +:+ String (pretty_N_char (x `mod` 10)) "").
  repeat split.
  - intros s. rewrite pretty_N_go_step by done.
    rewrite Hgo. by rewrite append_assoc.
  - rewrite all_in_app, Hall. simpl. by rewrite is_digit_pretty_N_char.
  - unfold int_of_digits in *. rewrite int_acc_app, Hint. simpl.
    rewrite digit_value_pretty_N_char by (apply N.mod_lt; lia).
    pose proof (N.div_mod x 10 ltac:(lia)). lia.
  - intros _. by destruct d.
Qed.

Lemma pretty_nonneg_digits (v : Z) :
  0 <= v ->
  pretty v <> "" /\ all_in is_digit (pretty v) = true /\
  int_of_digits (pretty v) = v.
Proof.
  intros Hv. destruct v as [|p|p]; [done| |lia].
  unfold pretty, pretty_Z, pretty, pretty_positive, pretty, pretty_N.
  destruct (decide (N.pos p = 0%N)) as [|_]; [done|].
  destruct (pretty_N_go_digits (N.pos p)) as (d & Hgo & Hall & Hint & Hne).
  rewrite Hgo, append_nil_r. split_and!; [apply Hne; lia|done|by rewrite Hint].
Qed.

End Decimal.

(** ** The pattern of the scheme *)

Section Pattern.
Implicit Types (name ver junk s : string).

Lemma re_match_name_ver name ver junk :
  name <> "" -> all_in is_upper_or_digit name = true ->
  ver <> "" -> all_in is_digit ver = true ->
  stops is_digit junk ->
  re_match_source (name +:+ "," +:+ ver +:+ junk)
  = Some {| group_name := name; group_ver := Some ver |}.
Proof.
  intros Hn Hname Hv Hver Hjunk. unfold re_match_source.
  rewrite (span_app _ name ("," +:+ ver +:+ junk)) by done.
  destruct name as [|c name]; [done|]. simpl.
  rewrite (span_app _ ver junk) by done.
  by destruct ver.
Qed.

Lemma re_match_name name :
  name <> "" -> all_in is_upper_or_digit name = true ->
  re_match_source name = Some {| group_name := name; group_ver := None |}.
Proof.
  intros Hn Hname. unfold re_match_source.
  rewrite span_all by done. by destruct name.
Qed.

(** What a match is: a prefix [NAME] or [NAME,VERSION] of the string, as long
    as the classes allow. *)
Lemma re_match_source_prefix s g :
  re_match_source s = Some g ->
  exists rest,
    s = group_name g
        +:+ match group_ver g with Some v => "," +:+ v | None => "" end
        +:+ rest /\
    group_name g <> "" /\ all_in is_upper_or_digit (group_name g) = true /\
    match group_ver g with
    | Some v => v <> "" /\ all_in is_digit v = true /\ stops is_digit rest
    | None => no_version rest
    end.
Proof.
  unfold re_match_source.
  destruct (span is_upper_or_digit s) as [name rest] eqn:Hname.
  apply span_spec in Hname as (-> & Hall & Hstop).
  destruct name as [|c name]; [done|].
  destruct rest as [|x rest].
  { intros [= <-]. exists "". simpl. repeat split; try done. }
  destruct (Ascii.ascii_dec x ","%char) as [->|Hx].
  - destruct (span is_digit rest) as [ver rest'] eqn:Hver.
    apply span_spec in Hver as (-> & Hdigits & Hstop').
    destruct ver as [|d ver].
    + intros [= <-]. exists (String "," rest'). simpl.
      repeat split; try done. by intros ? [= <-].
    + intros [= <-]. exists rest'. simpl. repeat split; try done.
  - intros Hg.
    assert (g = {| group_name := String c name; group_ver := None |}) as ->
      by (repeat case_match; congruence).
    exists (String x rest). simpl. repeat split; try done.
    intros rest0 [= -> _]. done.
Qed.

Lemma re_match_none s :
  re_match_source s = None <-> stops is_upper_or_digit s.
Proof.
  unfold re_match_source. destruct s as [|c s]; simpl; [done|].
  destruct (is_upper_or_digit c) eqn:Hc; [|done].
  destruct (span is_upper_or_digit s) as [a b].
  split; [|done]. destruct b as [|x b]; [done|].
  destruct (Ascii.ascii_dec x ","%char) as [->|Hx].
  - destruct (span is_digit b) as [[|] ?]; done.
  - repeat case_match; done.
Qed.
End Pattern.

(** ** The lookup of the host container *)

Section Lookup.
Implicit Types (k : hdu_key) (hl : HDUList) (h : HDU) (idx : nat) (c : ascii).

Lemma word_char_bounds c :
  is_upper_or_digit c = true ->
  (48 <= nat_of_ascii c <= 90)%nat.
Proof.
  unfold is_upper_or_digit.
  intros [[H1 H2]%andb_true_iff|[H1 H2]%andb_true_iff]%orb_true_iff;
    apply Nat.leb_le in H1, H2; lia.
Qed.

Lemma upper_char_word c : is_upper_or_digit c = true -> upper_char c = c.
Proof.
  intros H%word_char_bounds. unfold upper_char.
  destruct (Nat.leb_spec 97 (nat_of_ascii c)); [lia|done].
Qed.

Lemma is_space_word c : is_upper_or_digit c = true -> is_space c = false.
Proof.
  intros H%word_char_bounds. unfold is_space.
  destruct (Nat.leb_spec (nat_of_ascii c) 13); [lia|].
  destruct (Nat.leb_spec (nat_of_ascii c) 32); [lia|].
  by rewrite !andb_false_r.
Qed.

Lemma upper_word s : all_in is_upper_or_digit s = true -> upper s = s.
Proof.
  induction s as [|c s IH]; [done|]. simpl.
  intros [Hc Hs]%andb_true_iff. by rewrite upper_char_word, IH.
Qed.

Lemma lstrip_word s : all_in is_upper_or_digit s = true -> lstrip s = s.
Proof.
  destruct s as [|c s]; [done|]. simpl.
  intros [Hc _]%andb_true_iff. by rewrite is_space_word.
Qed.

Lemma rstrip_word s : all_in is_upper_or_digit s = true -> rstrip s = s.
Proof.
  induction s as [|c s IH]; [done|]. simpl.
  intros [Hc Hs]%andb_true_iff. rewrite IH by done.
  destruct s; [by rewrite is_space_word|done].
Qed.

(** A word over [[A-Z0-9]] is its own normal form. *)
Lemma normalise_word s : all_in is_upper_or_digit s = true -> normalise s = s.
Proof.
  intros H. unfold normalise, strip. by rewrite lstrip_word, rstrip_word, upper_word.
Qed.

Lemma index_of_from_None idx k hl :
  index_of_from idx k hl = None <->
  forall j h, nth_error hl j = Some h -> answers (idx + j) k h = false.
Proof.
  revert idx. induction hl as [|x hl IH]; intros idx; simpl.
  - split; [|done]. by intros _ [|j] h.
  - destruct (answers idx k x) eqn:Hx.
    + split; [done|]. intros H. specialize (H O x eq_refl).
      rewrite Nat.add_0_r in H. congruence.
    + rewrite IH. split.
      * intros H [|j] h; simpl.
        -- intros [= <-]. by rewrite Nat.add_0_r.
        -- intros Hj. rewrite <- Nat.add_succ_comm. by apply H.
      * intros H j h Hj. rewrite Nat.add_succ_comm. by apply (H (S j)).
Qed.

(** The lookup finds the first HDU that passes the test. *)
Lemma index_of_from_Some idx k hl h :
  index_of_from idx k hl = Some h <->
  exists j,
    nth_error hl j = Some h /\ answers (idx + j) k h = true /\
    forall j' h', (j' < j)%nat -> nth_error hl j' = Some h' ->
                  answers (idx + j') k h' = false.
Proof.
  revert idx. induction hl as [|x hl IH]; intros idx; simpl.
  - split; [done|]. by intros ([|j] & ? & _).
  - destruct (answers idx k x) eqn:Hx.
    + split.
      * intros [= <-]. exists O. rewrite Nat.add_0_r.
        split_and!; [done..|]. intros j' h' Hlt. lia.
      * intros ([|j] & Hj & Hans & Hfirst).
        -- by injection Hj as ->.
        -- specialize (Hfirst O x ltac:(lia) eq_refl).
           rewrite Nat.add_0_r in Hfirst. congruence.
    + rewrite IH. split.
      * intros (j & Hj & Hans & Hfirst). exists (S j).
        rewrite <- Nat.add_succ_comm. split_and!; [done..|].
        intros [|j'] h' Hlt; simpl.
        -- intros [= <-]. by rewrite Nat.add_0_r.
        -- intros Hj'. rewrite <- Nat.add_succ_comm. apply Hfirst; [lia|done].
      * intros ([|j] & Hj & Hans & Hfirst).
        -- injection Hj as ->. rewrite Nat.add_0_r in Hans. congruence.
        -- exists j. rewrite Nat.add_succ_comm. split_and!; [done..|].
           intros j' h' Hlt Hj'. rewrite Nat.add_succ_comm.
           apply (Hfirst (S j')); [lia|done].
Qed.

Lemma index_of_from_In idx k hl h :
  index_of_from idx k hl = Some h -> In h hl.
Proof.
  intros (j & Hj & _)%index_of_from_Some. by eapply List.nth_error_In.
Qed.

(** When some HDU passes the test, the lookup finds one. *)
Lemma index_of_from_found idx k hl j x :
  nth_error hl j = Some x -> answers (idx + j) k x = true ->
  exists h, index_of_from idx k hl = Some h.
Proof.
  intros Hj Hans. destruct (index_of_from idx k hl) as [h|] eqn:Hfind; [by exists h|].
  rewrite index_of_from_None in Hfind. by rewrite (Hfind j x Hj) in Hans.
Qed.

Lemma index_of_from_map idx k (g : HDU -> HDU) hl :
  (forall i h, answers i k (g h) = answers i k h) ->
  index_of_from idx k (List.map g hl) = option_map g (index_of_from idx k hl).
Proof.
  intros Hg. revert idx. induction hl as [|x hl IH]; intros idx; simpl; [done|].
  rewrite Hg. by destruct (answers idx k x).
Qed.

Lemma index_of_from_snoc idx k hl x :
  index_of_from idx k (hl ++ [x])%list
  = match index_of_from idx k hl with
    | Some y => Some y
    | None => if answers (idx + length hl) k x then Some x else None
    end.
Proof.
  revert idx. induction hl as [|y hl IH]; intros idx; simpl.
  - by rewrite Nat.add_0_r.
  - destruct (answers idx k y); [done|]. by rewrite IH, Nat.add_succ_comm.
Qed.

(** What passing the test says of an HDU. *)
Lemma answers_inv idx k h :
  answers idx k h = true ->
  (normalise (hdu_name h) = normalise (key_name k) \/
   (normalise (key_name k) = "PRIMARY" /\ idx = O)) /\
  (forall v, key_ver k = Some v -> hdu_ver h = v).
Proof.
  unfold answers. intros [Hname Hver]%andb_true_iff. split.
  - apply orb_true_iff in Hname as [H%bool_decide_eq_true|[H1 H2]%andb_true_iff].
    + by left.
    + right. apply bool_decide_eq_true in H1. by apply Nat.eqb_eq in H2.
  - intros v Hv. rewrite Hv in Hver. by apply bool_decide_eq_true in Hver.
Qed.

Lemma answers_named idx k h :
  normalise (hdu_name h) = normalise (key_name k) ->
  (forall v, key_ver k = Some v -> hdu_ver h = v) ->
  answers idx k h = true.
Proof.
  intros Hname Hver. unfold answers. apply andb_true_iff. split.
  - apply orb_true_iff. left. by apply bool_decide_eq_true.
  - destruct (key_ver k) as [v|]; [|done].
    apply bool_decide_eq_true. by rewrite (Hver v).
Qed.

Lemma hdulist_getitem_error hl k e :
  hdulist_getitem hl k = inl e -> e = KeyError.
Proof. unfold hdulist_getitem. destruct (index_of_from 0 k hl); congruence. Qed.
End Lookup.

(** ** Resolving sources: [get_block] *)

Section GetBlock.
Variable super : manager.
Variable hdulist : HDUList.
Implicit Types (s : state) (name ver rest : string).

Lemma startswith_fits rest : startswith ("fits:" +:+ rest) "fits:" = true.
Proof. by destruct rest. Qed.

Lemma get_block_matched rest parts s :
  re_match_source rest = Some parts ->
  EmbeddedBlockManager.get_block super hdulist (SrcStr ("fits:" +:+ rest)) s
  = match hdulist_getitem hdulist
            (match group_ver parts with
             | Some v => KeyNameVer (group_name parts) (int_of_digits v)
             | None => KeyName (group_name parts)
             end) with
    | inr hdu => (inr (FitsBlock (st_next s) hdu), allocated s)
    | inl e => (inl e, s)
    end.
Proof.
  intros Hm. unfold EmbeddedBlockManager.get_block.
  rewrite startswith_fits.
  change (slice_from 5 ("fits:" +:+ rest)) with rest.
  rewrite Hm.
  unfold mbind, ST_bind, lift_result.
  by destruct (hdulist_getitem hdulist _).
Qed.

Lemma get_block_name_ver name ver s :
  name <> "" -> all_in is_upper_or_digit name = true ->
  ver <> "" -> all_in is_digit ver = true ->
  EmbeddedBlockManager.get_block super hdulist
    (SrcStr ("fits:" +:+ name +:+ "," +:+ ver)) s
  = match hdulist_getitem hdulist (KeyNameVer name (int_of_digits ver)) with
    | inr hdu => (inr (FitsBlock (st_next s) hdu), allocated s)
    | inl e => (inl e, s)
    end.
Proof.
  intros Hn Hname Hv Hver.
  rewrite (get_block_matched _ {| group_name := name; group_ver := Some ver |});
    [done|].
  rewrite <- (append_nil_r ver) at 1. by apply re_match_name_ver.
Qed.

Lemma get_block_name name s :
  name <> "" -> all_in is_upper_or_digit name = true ->
  EmbeddedBlockManager.get_block super hdulist (SrcStr ("fits:" +:+ name)) s
  = match hdulist_getitem hdulist (KeyName name) with
    | inr hdu => (inr (FitsBlock (st_next s) hdu), allocated s)
    | inl e => (inl e, s)
    end.
Proof.
  intros Hn Hname.
  rewrite (get_block_matched _ {| group_name := name; group_ver := None |});
    [done|].
  by apply re_match_name.
Qed.

Lemma get_block_other_scheme str s :
  startswith str "fits:" = false ->
  EmbeddedBlockManager.get_block super hdulist (SrcStr str) s
  = mgr_get_block super (SrcStr str) s.
Proof. intros H. unfold EmbeddedBlockManager.get_block. by rewrite H. Qed.
End GetBlock.




(** ** Naming blocks: [get_source] *)

Lemma find_hdu_is_Some hdulist i hdu :
  find_hdu_is hdulist i = Some hdu -> In hdu hdulist /\ hdu_id hdu = i.
Proof.
  intros [Hin Hid]%List.find_some. split; [done|].
  by apply bool_decide_eq_true in Hid.
Qed.

Lemma find_hdu_is_None hdulist i :
  find_hdu_is hdulist i = None -> forall hdu, In hdu hdulist -> hdu_id hdu <> i.
Proof.
  intros Hnone hdu Hin. pose proof (List.find_none _ _ Hnone hdu Hin) as H.
  by apply bool_decide_eq_false in H.
Qed.

(** C3.  For a block that wraps a section, [get_source] scans the host
    container for the section that is the wrapped object and returns
    [fits:NAME,VERSION] from it; when no section of the container is that
    object it raises [ValueError("FITS block seems to have been removed")],
    the error for a removed resource.  Either way the document state is the
    one before the call.  Any other block goes to the base manager. *)
Theorem get_source_scheme (super : manager) (hdulist : HDUList) (s : state) :
  (forall (i : oid) (_hdu : HDU),
      match find_hdu_is hdulist (hdu_id _hdu) with
      | Some hdu =>
          In hdu hdulist /\ hdu_id hdu = hdu_id _hdu /\
          EmbeddedBlockManager.get_source super hdulist (FitsBlock i _hdu) s
          = (inr (SrcStr ("fits:" +:+ hdu_name hdu +:+ "," +:+ pretty (hdu_ver hdu))), s)
      | None =>
          (forall hdu, In hdu hdulist -> hdu_id hdu <> hdu_id _hdu) /\
          EmbeddedBlockManager.get_source super hdulist (FitsBlock i _hdu) s
          = (inl (ValueError "FITS block seems to have been removed"), s)
      end) /\
  (forall b : Block,
      EmbeddedBlockManager.get_source super hdulist (BaseBlock b) s
      = mgr_get_source super (BaseBlock b) s).
Proof.
  split; [|done].
  intros i _hdu. simpl.
  destruct (find_hdu_is hdulist (hdu_id _hdu)) as [hdu|] eqn:Hfind.
  - apply find_hdu_is_Some in Hfind as [Hin Hid]. done.
  - split; [|done]. by apply find_hdu_is_None.
Qed.

(** The scenario of the specification: the block around [SCI], version 1, is
    named [fits:SCI,1]; once the section has left the container, naming the
    block fails. *)
Example get_source_sci :
  EmbeddedBlockManager.get_source BlockManager.as_manager Scenario.hdulist
    (FitsBlock 20 Scenario.sci) Scenario.empty
  = (inr (SrcStr "fits:SCI,1"), Scenario.empty)
  /\ EmbeddedBlockManager.get_source BlockManager.as_manager [Scenario.primary]
       (FitsBlock 20 Scenario.sci) Scenario.empty
     = (inl (ValueError "FITS block seems to have been removed"), Scenario.empty).
Proof. split; reflexivity. Qed.

(** ** Sources that do not resolve *)

Lemma find_none_iff {A} (f : A -> bool) (l : list A) :
  (forall x, In x l -> f x = false) -> List.find f l = None.
Proof.
  induction l as [|x l IH]; simpl; intros H; [done|].
  rewrite (H x) by auto. apply IH. auto.
Qed.

(** C8, the counterexample.  The source [fits:MISSING,1] raises [KeyError],
    the error of the container's lookup, which is the class that the handlers
    of the module catch and is not [AddressError].  And a source may name a
    section that the container lacks without raising at all: [fits:PRIMARY]
    resolves to the first section of a container that has none of that
    name. *)
Lemma missing_section_raises_KeyError :
  EmbeddedBlockManager.get_block BlockManager.as_manager Scenario.hdulist
    (SrcStr "fits:MISSING,1") Scenario.two_blocks
  = (inl KeyError, Scenario.two_blocks)
  /\ KeyError <> AddressError
  /\ lookup_failed KeyError = true /\ lookup_failed AddressError = false
  /\ (forall hdu, In hdu [Scenario.sci; Scenario.sci_data] ->
                  hdu_name hdu <> "PRIMARY")
  /\ EmbeddedBlockManager.get_block BlockManager.as_manager
       [Scenario.sci; Scenario.sci_data] (SrcStr "fits:PRIMARY") Scenario.two_blocks
     = (inr (FitsBlock 50 Scenario.sci), allocated Scenario.two_blocks).
Proof.
  split_and!; try done.
  intros hdu [<-|[<-|[]]]; done.
Qed.

(** C8, as the code has it.  A well-formed source [fits:NAME,VERSION] or
    [fits:NAME] that no section of the host container answers to raises the
    [KeyError] of the container's lookup, which nothing catches, with the
    document state unchanged.  No section answers when none has that name
    (stripped and in upper case) with that version, and, for the name
    [PRIMARY], the first section does not have that version either, or there
    is no section at all.  Every integer source is handed to the base manager;
    in the base registry an index outside the internal blocks raises
    [AddressError]. *)
Theorem get_block_missing (super : manager) (hdulist : HDUList) (s : state) :
  (forall name ver : string,
      name <> "" -> all_in is_upper_or_digit name = true ->
      ver <> "" -> all_in is_digit ver = true ->
      (forall hdu, In hdu hdulist ->
                   normalise (hdu_name hdu) = name ->
                   hdu_ver hdu <> int_of_digits ver) ->
      (name = "PRIMARY" ->
       forall first rest, hdulist = first :: rest ->
                          hdu_ver first <> int_of_digits ver) ->
      EmbeddedBlockManager.get_block super hdulist
        (SrcStr ("fits:" +:+ name +:+ "," +:+ ver)) s
      = (inl KeyError, s)) /\
  (forall name : string,
      name <> "" -> all_in is_upper_or_digit name = true ->
      (forall hdu, In hdu hdulist -> normalise (hdu_name hdu) <> name) ->
      (name = "PRIMARY" -> hdulist = []) ->
      EmbeddedBlockManager.get_block super hdulist (SrcStr ("fits:" +:+ name)) s
      = (inl KeyError, s)) /\
  (forall i : Z,
      EmbeddedBlockManager.get_block super hdulist (SrcInt i) s
      = mgr_get_block super (SrcInt i) s) /\
  (forall i : Z,
      i < 0 \/ Z.of_nat (length (BlockManager.internal_blocks s)) <= i ->
      EmbeddedBlockManager.get_block BlockManager.as_manager hdulist (SrcInt i) s
      = (inl AddressError, s)).
Proof.
  split_and!.
  - intros name ver Hn Hcl Hv Hd Hmissing Hprimary.
    rewrite get_block_name_ver by done. unfold hdulist_getitem.
    destruct (index_of_from 0 _ hdulist) as [h|] eqn:Hfind; [|done].
    apply index_of_from_Some in Hfind as (j & Hj & Ha & _).
    apply answers_inv in Ha as [Hname Hver]. simpl in Hname, Hver.
    rewrite (normalise_word name) in Hname by done.
    specialize (Hver _ eq_refl).
    destruct Hname as [Hname|[-> ->]].
    + by destruct (Hmissing h (List.nth_error_In _ _ Hj) Hname).
    + destruct hdulist as [|first rest]; [done|]. injection Hj as ->.
      by destruct (Hprimary eq_refl h rest eq_refl).
  - intros name Hn Hcl Hmissing Hprimary.
    rewrite get_block_name by done. unfold hdulist_getitem.
    destruct (index_of_from 0 _ hdulist) as [h|] eqn:Hfind; [|done].
    apply index_of_from_Some in Hfind as (j & Hj & Ha & _).
    apply answers_inv in Ha as [Hname _]. simpl in Hname.
    rewrite (normalise_word name) in Hname by done.
    destruct Hname as [Hname|[-> ->]].
    + by destruct (Hmissing h (List.nth_error_In _ _ Hj) Hname).
    + by rewrite (Hprimary eq_refl) in Hj.
  - done.
  - intros i Hi. simpl. unfold BlockManager.get_block. simpl.
    destruct (i <? 0) eqn:Hneg; [done|].
    apply Z.ltb_ge in Hneg.
    destruct (nth_error _ _) as [b|] eqn:Hnth; [|done].
    assert (Z.to_nat i < length (BlockManager.internal_blocks s))%nat
      by (apply List.nth_error_Some; congruence).
    lia.
Qed.

Lemma get_block_missing_witness :
  EmbeddedBlockManager.get_block BlockManager.as_manager Scenario.hdulist
    (SrcStr "fits:MISSING,1") Scenario.two_blocks
  = (inl KeyError, Scenario.two_blocks)
  /\ EmbeddedBlockManager.get_block BlockManager.as_manager Scenario.hdulist
       (SrcStr "fits:PRIMARY,2") Scenario.two_blocks
     = (inl KeyError, Scenario.two_blocks)
  /\ EmbeddedBlockManager.get_block BlockManager.as_manager Scenario.hdulist
       (SrcStr "fits:MISSING") Scenario.two_blocks
     = (inl KeyError, Scenario.two_blocks)
  /\ EmbeddedBlockManager.get_block BlockManager.as_manager Scenario.hdulist
       (SrcInt 5) Scenario.two_blocks
     = BlockManager.get_block (SrcInt 5) Scenario.two_blocks
  /\ EmbeddedBlockManager.get_block BlockManager.as_manager Scenario.hdulist
       (SrcInt 5) Scenario.two_blocks
     = (inl AddressError, Scenario.two_blocks).
Proof.
  destruct (get_block_missing BlockManager.as_manager Scenario.hdulist
              Scenario.two_blocks) as (Hpair & Hname & Hbase & Hint).
  split_and!.
  - apply (Hpair "MISSING" "1"); [done|reflexivity|done|reflexivity| |].
    + intros hdu [<-|[<-|[]]] Hn; discriminate Hn.
    + intros Hn. discriminate Hn.
  - apply (Hpair "PRIMARY" "2"); [done|reflexivity|done|reflexivity| |].
    + intros hdu [<-|[<-|[]]] Hn; [|discriminate Hn]. intros Hv. discriminate Hv.
    + intros _ first rest [= <- _] Hv. discriminate Hv.
  - apply (Hname "MISSING"); [done|reflexivity| |].
    + intros hdu [<-|[<-|[]]] Hn; discriminate Hn.
    + intros Hn. discriminate Hn.
  - exact (Hbase 5).
  - apply (Hint 5). right. simpl. lia.
Defined.

(** ** Sources the pattern does not match, and what follows a match *)

Section Trailing.
Implicit Types (name ver junk : string).

Lemma re_match_name_junk name junk :
  name <> "" -> all_in is_upper_or_digit name = true -> no_version junk ->
  re_match_source (name +:+ junk)
  = Some {| group_name := name; group_ver := None |}.
Proof.
  intros Hn Hname [Hstop Hcomma]. unfold re_match_source.
  rewrite span_app by done.
  destruct name as [|c name]; [done|].
  destruct junk as [|x junk]; [done|].
  destruct (Ascii.ascii_dec x ","%char) as [->|Hx].
  - specialize (Hcomma junk eq_refl).
    destruct junk as [|y junk]; simpl in *; [done|]. by rewrite Hcomma.
  - repeat case_match; done.
Qed.
End Trailing.

(** C7, the counterexample.  Characters after a valid name and version, or
    after a valid name, do not make the source fail: the adapter resolves the
    section named by the prefix. *)
Lemma trailing_characters_resolve :
  EmbeddedBlockManager.get_block BlockManager.as_manager Scenario.hdulist
    (SrcStr "fits:SCI,1;DROP") Scenario.empty
  = (inr (FitsBlock 20 Scenario.sci), allocated Scenario.empty)
  /\ EmbeddedBlockManager.get_block BlockManager.as_manager Scenario.hdulist
       (SrcStr "fits:SCI image") Scenario.empty
     = (inr (FitsBlock 20 Scenario.sci), allocated Scenario.empty).
Proof. split; reflexivity. Qed.

(** C7, as the code has it.  A source string that does not start with
    [fits:], or whose text after [fits:] does not begin with a character of
    [[A-Z0-9]], is resolved by the base manager and by nothing else; in the
    base registry it raises [AddressError] unless it parses as an index of an
    internal block, and the adapter hands that outcome on as it is, with the
    document state unchanged.  A source that begins with [fits:NAME,VERSION]
    or [fits:NAME] is resolved from that prefix, whatever follows it. *)
Theorem get_block_unrecognized (hdulist : HDUList) (s : state) :
  (forall (super : manager) (str : string),
      startswith str "fits:" = false \/
      re_match_source (slice_from 5 str) = None ->
      EmbeddedBlockManager.get_block super hdulist (SrcStr str) s
      = mgr_get_block super (SrcStr str) s) /\
  (forall str : string,
      startswith str "fits:" = false \/
      re_match_source (slice_from 5 str) = None ->
      match BlockManager.index_of_source (SrcStr str) with
      | Some i => Z.of_nat (length (BlockManager.internal_blocks s)) <= i
      | None => True
      end ->
      EmbeddedBlockManager.get_block BlockManager.as_manager hdulist (SrcStr str) s
      = (inl AddressError, s)) /\
  (forall (super : manager) (name ver junk : string),
      name <> "" -> all_in is_upper_or_digit name = true ->
      ver <> "" -> all_in is_digit ver = true ->
      stops is_digit junk ->
      EmbeddedBlockManager.get_block super hdulist
        (SrcStr ("fits:" +:+ name +:+ "," +:+ ver +:+ junk)) s
      = EmbeddedBlockManager.get_block super hdulist
          (SrcStr ("fits:" +:+ name +:+ "," +:+ ver)) s) /\
  (forall (super : manager) (name junk : string),
      name <> "" -> all_in is_upper_or_digit name = true ->
      no_version junk ->
      EmbeddedBlockManager.get_block super hdulist
        (SrcStr ("fits:" +:+ name +:+ junk)) s
      = EmbeddedBlockManager.get_block super hdulist
          (SrcStr ("fits:" +:+ name)) s).
Proof.
  assert (forall (super : manager) (str : string),
      startswith str "fits:" = false \/
      re_match_source (slice_from 5 str) = None ->
      EmbeddedBlockManager.get_block super hdulist (SrcStr str) s
      = mgr_get_block super (SrcStr str) s) as Hbase.
  { intros super str [H|H]; [by apply get_block_other_scheme|].
    unfold EmbeddedBlockManager.get_block. rewrite H. by case_match. }
  split_and!.
  - done.
  - intros str Hstr Hidx. rewrite Hbase by done. simpl.
    unfold BlockManager.get_block.
    destruct (BlockManager.index_of_source (SrcStr str)) as [i|]; [|done].
    destruct (i <? 0); [done|].
    destruct (nth_error _ _) as [b|] eqn:Hnth; [|done].
    assert (Z.to_nat i < length (BlockManager.internal_blocks s))%nat
      by (apply List.nth_error_Some; congruence).
    lia.
  - intros super name ver junk Hn Hname Hv Hver Hjunk.
    rewrite (get_block_matched _ _ _ {| group_name := name; group_ver := Some ver |})
      by by apply re_match_name_ver.
    symmetry.
    rewrite (get_block_matched _ _ _ {| group_name := name; group_ver := Some ver |});
      [done|].
    rewrite <- (append_nil_r ver) at 1. by apply re_match_name_ver.
  - intros super name junk Hn Hname Hjunk.
    rewrite (get_block_matched _ _ _ {| group_name := name; group_ver := None |})
      by by apply re_match_name_junk.
    symmetry.
    by rewrite (get_block_matched _ _ _ {| group_name := name; group_ver := None |})
      by by apply re_match_name.
Qed.

Lemma get_block_unrecognized_witness :
  EmbeddedBlockManager.get_block BlockManager.as_manager Scenario.hdulist
    (SrcStr "http:SCI,1") Scenario.two_blocks
  = (inl AddressError, Scenario.two_blocks)
  /\ EmbeddedBlockManager.get_block BlockManager.as_manager Scenario.hdulist
       (SrcStr "fits:sci,1") Scenario.two_blocks
     = (inl AddressError, Scenario.two_blocks)
  /\ EmbeddedBlockManager.get_block BlockManager.as_manager Scenario.hdulist
       (SrcStr "7") Scenario.two_blocks
     = BlockManager.get_block (SrcStr "7") Scenario.two_blocks
  /\ EmbeddedBlockManager.get_block BlockManager.as_manager Scenario.hdulist
       (SrcStr "fits:SCI,1;DROP") Scenario.two_blocks
     = EmbeddedBlockManager.get_block BlockManager.as_manager Scenario.hdulist
         (SrcStr "fits:SCI,1") Scenario.two_blocks
  /\ EmbeddedBlockManager.get_block BlockManager.as_manager Scenario.hdulist
       (SrcStr "fits:SCI image") Scenario.two_blocks
     = EmbeddedBlockManager.get_block BlockManager.as_manager Scenario.hdulist
         (SrcStr "fits:SCI") Scenario.two_blocks.
Proof.
  destruct (get_block_unrecognized Scenario.hdulist Scenario.two_blocks)
    as (Hbase & Herr & Hver & Hname).
  split_and!.
  - exact (Herr "http:SCI,1" (or_introl eq_refl) I).
  - exact (Herr "fits:sci,1" (or_intror eq_refl) I).
  - exact (Hbase BlockManager.as_manager "7" (or_introl eq_refl)).
  - exact (Hver BlockManager.as_manager "SCI" "1" ";DROP"
             ltac:(done) eq_refl ltac:(done) eq_refl eq_refl).
  - refine (Hname BlockManager.as_manager "SCI" " image"
             ltac:(done) eq_refl (conj eq_refl _)).
    intros rest Hrest. discriminate Hrest.
Defined.

(** ** Naming a block and resolving the name again *)

Lemma find_first_match {A} (f : A -> bool) (l : list A) (x : A) :
  In x l -> f x = true -> exists y, List.find f l = Some y /\ In y l /\ f y = true.
Proof.
  intros Hin Hfx. destruct (List.find f l) as [y|] eqn:Hfind.
  - exists y. apply List.find_some in Hfind. tauto.
  - by rewrite (List.find_none _ _ Hfind x Hin) in Hfx.
Qed.

Lemma index_is_nth (bs : list Block) (b : Block) :
  In b bs ->
  exists n b', BlockManager.index_is (blk_id b) bs = Some n /\
               nth_error bs n = Some b' /\ blk_id b' = blk_id b.
Proof.
  induction bs as [|x bs IH]; simpl; [done|].
  intros Hin. destruct (bool_decide (blk_id x = blk_id b)) eqn:Hx.
  - exists O, x. apply bool_decide_eq_true in Hx. done.
  - destruct Hin as [->|Hin].
    + apply bool_decide_eq_false in Hx. done.
    + destruct (IH Hin) as (n & b' & -> & Hnth & Hid). by exists (S n), b'.
Qed.

(** C1, the counterexample.  The block that resolving the name of a wrapper
    returns is a new object: [get_block] calls the constructor [_FitsBlock] on
    every call.  Nor is it always a wrapper of the same section: a section
    whose name has a character outside [[A-Z0-9]] is not found again under its
    own name, the second of two sections with one name and version resolves
    to the first, a section with a negative version resolves to the first
    section of its name, and a section named [PRIMARY] that is not the first
    of the container resolves to the first section when that one has the same
    version, whatever its name. *)
Lemma reresolve_not_same_object :
  reresolve
    (EmbeddedBlockManager.as_manager BlockManager.as_manager Scenario.hdulist)
    (FitsBlock 19 Scenario.sci) Scenario.empty
  = (inr (FitsBlock 20 Scenario.sci), allocated Scenario.empty)
  /\ block_id (FitsBlock 20 Scenario.sci) <> block_id (FitsBlock 19 Scenario.sci)
  /\ reresolve
       (EmbeddedBlockManager.as_manager BlockManager.as_manager
          [Scenario.primary; Scenario.sci_data])
       (FitsBlock 19 Scenario.sci_data) Scenario.empty
     = (inl KeyError, Scenario.empty)
  /\ reresolve
       (EmbeddedBlockManager.as_manager BlockManager.as_manager
          [Scenario.primary; Scenario.sci; Scenario.sci_again])
       (FitsBlock 19 Scenario.sci_again) Scenario.empty
     = (inr (FitsBlock 20 Scenario.sci), allocated Scenario.empty)
  /\ reresolve
       (EmbeddedBlockManager.as_manager BlockManager.as_manager
          [Scenario.primary; Scenario.err_2; Scenario.err_1])
       (FitsBlock 19 Scenario.err_1) Scenario.empty
     = (inr (FitsBlock 20 Scenario.err_2), allocated Scenario.empty)
  /\ reresolve
       (EmbeddedBlockManager.as_manager BlockManager.as_manager
          [Scenario.sci; Scenario.late_primary])
       (FitsBlock 19 Scenario.late_primary) Scenario.empty
     = (inr (FitsBlock 20 Scenario.sci), allocated Scenario.empty).
Proof. split_and!; [reflexivity|by compute|reflexivity..]. Qed.

(** C1, as the code has it.  For a block that exists in the document state
    (its identity was handed out before) and wraps a section of the host
    container, resolving the name of the block gives a wrapper around the same
    section that is a new object, not the block itself, provided the name of
    the section is a non-empty word over [[A-Z0-9]], its version is not
    negative, every section of the container whose name, stripped and in upper
    case, is that name and whose version is that version is that section, and,
    when the name is [PRIMARY], the first section of the container is that
    section if it has that version.  For an internal block of the base
    registry, resolving its name gives that block itself. *)
Theorem reresolve_same_section (hdulist : HDUList) (s : state) :
  (forall (super : manager) (i : oid) (_hdu hdu : HDU),
      (i < st_next s)%nat ->
      find_hdu_is hdulist (hdu_id _hdu) = Some hdu ->
      hdu_name hdu <> "" -> all_in is_upper_or_digit (hdu_name hdu) = true ->
      0 <= hdu_ver hdu ->
      (forall h, In h hdulist -> normalise (hdu_name h) = hdu_name hdu ->
                 hdu_ver h = hdu_ver hdu -> hdu_id h = hdu_id _hdu) ->
      (hdu_name hdu = "PRIMARY" ->
       forall first rest, hdulist = first :: rest ->
                          hdu_ver first = hdu_ver hdu ->
                          hdu_id first = hdu_id _hdu) ->
      exists hdu',
        In hdu' hdulist /\ hdu_id hdu' = hdu_id _hdu /\
        reresolve (EmbeddedBlockManager.as_manager super hdulist)
          (FitsBlock i _hdu) s
        = (inr (FitsBlock (st_next s) hdu'), allocated s) /\
        block_id (FitsBlock (st_next s) hdu') <> block_id (FitsBlock i _hdu)) /\
  (forall b : Block,
      In b (BlockManager.internal_blocks s) ->
      exists b',
        In b' (BlockManager.internal_blocks s) /\ blk_id b' = blk_id b /\
        reresolve (EmbeddedBlockManager.as_manager BlockManager.as_manager hdulist)
          (BaseBlock b) s
        = (inr (BaseBlock b'), s)).
Proof.
  split.
  - intros super i _hdu hdu Hold Hfind Hn Hname Hver Huniq Hprimary.
    destruct (pretty_nonneg_digits (hdu_ver hdu) Hver) as (Hne & Hdigits & Hint).
    destruct (find_hdu_is_Some _ _ _ Hfind) as [Hin Hid].
    destruct (List.In_nth_error _ _ Hin) as [j Hj].
    destruct (index_of_from_found 0
                (KeyNameVer (hdu_name hdu) (int_of_digits (pretty (hdu_ver hdu))))
                hdulist j hdu Hj) as [hdu' Hfirst].
    { apply answers_named; [done|]. simpl. intros v [= <-]. by rewrite Hint. }
    pose proof (index_of_from_In _ _ _ _ Hfirst) as Hin'.
    assert (hdu_id hdu' = hdu_id _hdu) as Hid'.
    { apply index_of_from_Some in Hfirst as (j' & Hj' & Ha & _).
      apply answers_inv in Ha as [Hnm Hv]. simpl in Hnm, Hv.
      rewrite (normalise_word (hdu_name hdu)) in Hnm by done.
      specialize (Hv _ eq_refl). rewrite Hint in Hv.
      destruct Hnm as [Hnm|[Hp ->]].
      - by apply Huniq.
      - destruct hdulist as [|first rest]; [done|]. injection Hj' as ->.
        by apply (Hprimary Hp hdu' rest). }
    exists hdu'. split_and!; [done|done| |simpl; lia].
    unfold reresolve. simpl. unfold mbind, ST_bind.
    simpl. rewrite Hfind. unfold mret, ST_ret.
    change (EmbeddedBlockManager.get_block super hdulist
              (SrcStr (format_fits (hdu_name hdu) (hdu_ver hdu))) s
            = (inr (FitsBlock (st_next s) hdu'), allocated s)).
    unfold format_fits. rewrite get_block_name_ver by done.
    unfold hdulist_getitem. by rewrite Hfirst.
  - intros b Hin.
    destruct (index_is_nth _ _ Hin) as (n & b' & Hidx & Hnth & Hid).
    exists b'. split_and!; [by eapply List.nth_error_In|done|].
    unfold reresolve. simpl. unfold mbind, ST_bind. simpl. rewrite Hidx.
    change (BlockManager.get_block (SrcInt (Z.of_nat n)) s
            = (inr (BaseBlock b'), s)).
    unfold BlockManager.get_block, BlockManager.index_of_source.
    destruct (Z.of_nat n <? 0) eqn:Hneg; [apply Z.ltb_lt in Hneg; lia|].
    by rewrite Nat2Z.id, Hnth.
Qed.

Lemma reresolve_same_section_witness :
  (exists hdu',
      In hdu' Scenario.hdulist /\ hdu_id hdu' = hdu_id Scenario.sci /\
      reresolve
        (EmbeddedBlockManager.as_manager BlockManager.as_manager Scenario.hdulist)
        (FitsBlock 19 Scenario.sci) Scenario.two_blocks
      = (inr (FitsBlock 50 hdu'), allocated Scenario.two_blocks) /\
      block_id (FitsBlock 50 hdu') <> block_id (FitsBlock 19 Scenario.sci)) /\
  (exists hdu',
      In hdu' [Scenario.primary; Scenario.lower_case] /\
      hdu_id hdu' = hdu_id Scenario.primary /\
      reresolve
        (EmbeddedBlockManager.as_manager BlockManager.as_manager
           [Scenario.primary; Scenario.lower_case])
        (FitsBlock 19 Scenario.primary) Scenario.two_blocks
      = (inr (FitsBlock 50 hdu'), allocated Scenario.two_blocks) /\
      block_id (FitsBlock 50 hdu') <> block_id (FitsBlock 19 Scenario.primary)) /\
  (exists b',
      In b' (BlockManager.internal_blocks Scenario.two_blocks) /\
      blk_id b' = blk_id Scenario.b1 /\
      reresolve
        (EmbeddedBlockManager.as_manager BlockManager.as_manager Scenario.hdulist)
        (BaseBlock Scenario.b1) Scenario.two_blocks
      = (inr (BaseBlock b'), Scenario.two_blocks)).
Proof.
  split_and!.
  - apply (proj1 (reresolve_same_section Scenario.hdulist Scenario.two_blocks)
             BlockManager.as_manager 19%nat Scenario.sci Scenario.sci);
      [simpl; lia|reflexivity|done|reflexivity|done| |].
    + intros h [<-|[<-|[]]] Hname Hver; [discriminate Hname|reflexivity].
    + intros Hname. discriminate Hname.
  - apply (proj1 (reresolve_same_section [Scenario.primary; Scenario.lower_case]
                    Scenario.two_blocks)
             BlockManager.as_manager 19%nat Scenario.primary Scenario.primary);
      [simpl; lia|reflexivity|done|reflexivity|done| |].
    + intros h [<-|[<-|[]]] Hname Hver; [reflexivity|discriminate Hname].
    + intros _ first rest [= <- _] _. reflexivity.
  - apply (proj2 (reresolve_same_section Scenario.hdulist Scenario.two_blocks)
             Scenario.b1). simpl. auto.
Defined.

(** ** Arrays over the memory of the host: [find_or_create_block_for_array] *)

Section FindOrCreate.
Variable super : manager.
Variable hdulist : HDUList.
Implicit Types (arr : array) (ctx : options) (s : state).

Lemma find_or_create_hosted arr ctx s :
  EmbeddedBlockManager.find_or_create_block_for_array super hdulist arr ctx s
  = match hosted hdulist arr with
    | Some hdu => (inr (FitsBlock (st_next s) hdu), allocated s)
    | None => mgr_find_or_create_block_for_array super arr ctx s
    end.
Proof.
  unfold EmbeddedBlockManager.find_or_create_block_for_array, hosted.
  destruct (arr_lazy arr); simpl; [done|].
  change (fun hdu => bool_decide (nd_id (get_array_base arr) = nd_id (hdu_data hdu)))
    with (aliases arr).
  by destruct (List.find (aliases arr) hdulist).
Qed.

Lemma hosted_Some arr hdu :
  hosted hdulist arr = Some hdu ->
  arr_lazy arr = false /\ In hdu hdulist /\
  nd_id (hdu_data hdu) = nd_id (get_array_base arr).
Proof.
  unfold hosted. destruct (arr_lazy arr); [done|].
  intros [Hin Hal]%List.find_some. apply bool_decide_eq_true in Hal. done.
Qed.

Lemma hosted_None arr :
  hosted hdulist arr = None <->
  arr_lazy arr = true \/
  forall hdu, In hdu hdulist -> nd_id (get_array_base arr) <> nd_id (hdu_data hdu).
Proof.
  unfold hosted. destruct (arr_lazy arr); [by split; auto|]. split.
  - intros Hnone. right. intros hdu Hin.
    pose proof (List.find_none _ _ Hnone hdu Hin) as H.
    by apply bool_decide_eq_false in H.
  - intros [?|Hnone]; [done|]. apply find_none_iff.
    intros hdu Hin. apply bool_decide_eq_false. by apply Hnone.
Qed.

(** The description of a hosted array: a wrapper is made, nothing is
    registered, and the wrapper is named after its section. *)
Lemma describe_hosted arr ctx s hdu :
  hosted hdulist arr = Some hdu ->
  exists hdu',
    find_hdu_is hdulist (hdu_id hdu) = Some hdu' /\
    AsdfFile.describe (EmbeddedBlockManager.as_manager super hdulist) ctx arr s
    = (inr (DescSource (SrcStr (format_fits (hdu_name hdu') (hdu_ver hdu')))),
       allocated s).
Proof.
  intros Hh. destruct (hosted_Some _ _ Hh) as (_ & Hin & _).
  destruct (find_first_match (fun h => bool_decide (hdu_id h = hdu_id hdu))
              hdulist hdu Hin) as (hdu' & Hfind & _ & _).
  { by apply bool_decide_eq_true. }
  change (find_hdu_is hdulist (hdu_id hdu) = Some hdu') in Hfind.
  exists hdu'. split; [done|].
  unfold AsdfFile.describe, mbind, ST_bind. simpl.
  rewrite find_or_create_hosted, Hh. simpl.
  by rewrite Hfind.
Qed.
End FindOrCreate.

(** C4, the counterexample.  The array [lazy_over_x] has the data array of
    the section [SCI] as its base, but it is an [NDArrayType]: the adapter
    does not look at the host container and the base manager makes a new
    internal block for it. *)
Lemma lazy_array_not_wrapped :
  nd_id (get_array_base Scenario.lazy_over_x) = nd_id (hdu_data Scenario.sci)
  /\ EmbeddedBlockManager.find_or_create_block_for_array BlockManager.as_manager
       Scenario.hdulist Scenario.lazy_over_x Scenario.defaults Scenario.empty
     = (inr (BaseBlock {| blk_id := 20; blk_base := 10;
                          blk_data := nd_bytes Scenario.x;
                          blk_storage := Internal |}),
        {| st_next := 21; st_tree := AsdfFile.empty_tree; st_uri := None;
           st_blocks := [ {| blk_id := 20; blk_base := 10;
                             blk_data := nd_bytes Scenario.x;
                             blk_storage := Internal |} ] |}).
Proof. split; reflexivity. Qed.

(** C4, as the code has it.  For an array that is not an [NDArrayType] and
    whose base is the data array of a section of the host container,
    [find_or_create_block_for_array] returns a new wrapper around the first
    such section and registers nothing; for an [NDArrayType], and for an array
    whose base is the data of no section, it returns what the base manager
    returns.  Writing a document whose only array is such a hosted one emits
    one [fits:NAME,VERSION] reference and leaves the internal blocks as they
    were: none, in a registry that had none. *)
Theorem find_or_create_wraps_section
    (hdulist : HDUList) (ctx : options) (s : state) :
  (forall (super : manager) (arr : array) (hdu : HDU),
      arr_lazy arr = false -> In hdu hdulist ->
      nd_id (get_array_base arr) = nd_id (hdu_data hdu) ->
      exists hdu',
        In hdu' hdulist /\
        nd_id (hdu_data hdu') = nd_id (get_array_base arr) /\
        EmbeddedBlockManager.find_or_create_block_for_array super hdulist arr ctx s
        = (inr (FitsBlock (st_next s) hdu'), allocated s) /\
        st_blocks (allocated s) = st_blocks s) /\
  (forall (super : manager) (arr : array),
      arr_lazy arr = true \/
      (forall hdu, In hdu hdulist ->
                   nd_id (get_array_base arr) <> nd_id (hdu_data hdu)) ->
      EmbeddedBlockManager.find_or_create_block_for_array super hdulist arr ctx s
      = mgr_find_or_create_block_for_array super arr ctx s) /\
  (forall (encode : tree -> list descriptor -> list Block -> options -> list Byte.byte)
          (arr : array) (hdu : HDU),
      AsdfFile.arrays_of (st_tree s) = [arr] ->
      arr_lazy arr = false -> In hdu hdulist ->
      nd_id (get_array_base arr) = nd_id (hdu_data hdu) ->
      exists wrapped hdu',
        In wrapped hdulist /\
        nd_id (hdu_data wrapped) = nd_id (get_array_base arr) /\
        In hdu' hdulist /\ hdu_id hdu' = hdu_id wrapped /\
        AsdfFile.write_to
          (EmbeddedBlockManager.as_manager BlockManager.as_manager hdulist)
          ctx encode s
        = (inr (encode (st_tree s)
                  [DescSource (SrcStr ("fits:" +:+ hdu_name hdu' +:+ ","
                                         +:+ pretty (hdu_ver hdu')))]
                  (BlockManager.internal_blocks s) ctx),
           allocated s) /\
        (st_blocks s = [] -> BlockManager.internal_blocks (allocated s) = [])).
Proof.
  assert (forall arr hdu, arr_lazy arr = false -> In hdu hdulist ->
            nd_id (get_array_base arr) = nd_id (hdu_data hdu) ->
            exists hdu', hosted hdulist arr = Some hdu') as Hhosted.
  { intros arr hdu Hlazy Hin Hal.
    destruct (hosted hdulist arr) as [hdu'|] eqn:Hh; [by exists hdu'|].
    apply hosted_None in Hh as [Hh|Hh]; [congruence|]. by destruct (Hh hdu Hin). }
  split_and!.
  - intros super arr hdu Hlazy Hin Hal.
    destruct (Hhosted arr hdu Hlazy Hin Hal) as [hdu' Hh].
    destruct (hosted_Some _ _ _ Hh) as (_ & Hin' & Hal').
    exists hdu'. by rewrite find_or_create_hosted, Hh.
  - intros super arr Hnone. apply hosted_None in Hnone.
    by rewrite find_or_create_hosted, Hnone.
  - intros encode arr hdu Harrs Hlazy Hin Hal.
    destruct (Hhosted arr hdu Hlazy Hin Hal) as [wrapped Hh].
    destruct (describe_hosted BlockManager.as_manager hdulist arr ctx s wrapped Hh)
      as (hdu' & Hfind & Hdesc).
    destruct (hosted_Some _ _ _ Hh) as (_ & Hin0 & Hal0).
    destruct (find_hdu_is_Some _ _ _ Hfind) as [Hin' Hid'].
    exists wrapped, hdu'. split_and!; try done.
    + unfold AsdfFile.write_to. rewrite Harrs. simpl.
      unfold mbind, ST_bind. by rewrite Hdesc.
    + intros Hempty. unfold BlockManager.internal_blocks. simpl. by rewrite Hempty.
Qed.

Lemma find_or_create_wraps_section_witness :
  (exists hdu',
      In hdu' Scenario.hdulist /\
      nd_id (hdu_data hdu') = nd_id (get_array_base Scenario.view_of_x) /\
      EmbeddedBlockManager.find_or_create_block_for_array BlockManager.as_manager
        Scenario.hdulist Scenario.view_of_x Scenario.defaults Scenario.empty
      = (inr (FitsBlock 20 hdu'), allocated Scenario.empty) /\
      st_blocks (allocated Scenario.empty) = st_blocks Scenario.empty)
  /\ EmbeddedBlockManager.find_or_create_block_for_array BlockManager.as_manager
       Scenario.hdulist Scenario.lazy_over_x Scenario.defaults Scenario.empty
     = BlockManager.find_or_create_block_for_array Scenario.lazy_over_x
         Scenario.defaults Scenario.empty
  /\ exists wrapped hdu',
       In wrapped Scenario.hdulist /\
       nd_id (hdu_data wrapped) = nd_id (get_array_base Scenario.view_of_x) /\
       In hdu' Scenario.hdulist /\ hdu_id hdu' = hdu_id wrapped /\
       AsdfFile.write_to
         (EmbeddedBlockManager.as_manager BlockManager.as_manager Scenario.hdulist)
         Scenario.defaults Scenario.encode Scenario.one_array
       = (inr (Scenario.encode (st_tree Scenario.one_array)
                 [DescSource (SrcStr ("fits:" +:+ hdu_name hdu' +:+ ","
                                        +:+ pretty (hdu_ver hdu')))]
                 (BlockManager.internal_blocks Scenario.one_array)
                 Scenario.defaults),
          allocated Scenario.one_array) /\
       (st_blocks Scenario.one_array = [] ->
        BlockManager.internal_blocks (allocated Scenario.one_array) = []).
Proof.
  split_and!.
  - destruct (find_or_create_wraps_section Scenario.hdulist Scenario.defaults
                Scenario.empty) as (Hwrap & _ & _).
    exact (Hwrap BlockManager.as_manager Scenario.view_of_x Scenario.sci
             eq_refl ltac:(simpl; auto) eq_refl).
  - destruct (find_or_create_wraps_section Scenario.hdulist Scenario.defaults
                Scenario.empty) as (_ & Hbase & _).
    exact (Hbase BlockManager.as_manager Scenario.lazy_over_x (or_introl eq_refl)).
  - destruct (find_or_create_wraps_section Scenario.hdulist Scenario.defaults
                Scenario.one_array) as (_ & _ & Hscenario).
    exact (Hscenario Scenario.encode Scenario.view_of_x Scenario.sci
             eq_refl eq_refl ltac:(simpl; auto) eq_refl).
Defined.

Example describe_one_hosted_array :
  AsdfFile.describe_all
    (EmbeddedBlockManager.as_manager BlockManager.as_manager Scenario.hdulist)
    Scenario.defaults (AsdfFile.arrays_of (st_tree Scenario.one_array))
    Scenario.one_array
  = (inr [DescSource (SrcStr "fits:SCI,1")], allocated Scenario.one_array).
Proof. reflexivity. Qed.

(** ** The write pass registers no block for a hosted array *)

Lemma bind_inv {S A B} (m : ST S A) (f : A -> ST S B) (s s' : S) (r : result B) :
  (m ≫= f) s = (r, s') ->
  (exists e, m s = (inl e, s') /\ r = inl e) \/
  (exists x s1, m s = (inr x, s1) /\ f x s1 = (r, s')).
Proof.
  unfold mbind, ST_bind. destruct (m s) as [[e|x] s1].
  - intros [= <- <-]. left. by exists e.
  - intros Hf. right. by exists x, s1.
Qed.

Section WritePass.
Variable hdulist : HDUList.
Variable ctx : options.
Local Abbreviation blocks :=
  (EmbeddedBlockManager.as_manager BlockManager.as_manager hdulist).

Lemma base_get_source_state b s :
  snd (BlockManager.get_source b s) = s.
Proof.
  unfold BlockManager.get_source. destruct b as [|bb]; [done|].
  by destruct (BlockManager.index_is _ _).
Qed.

Lemma get_source_state b s : snd (mgr_get_source blocks b s) = s.
Proof.
  destruct b as [i _hdu|bb]; simpl.
  - by destruct (find_hdu_is hdulist (hdu_id _hdu)).
  - exact (base_get_source_state (BaseBlock bb) s).
Qed.

Lemma find_or_create_blocks arr s r s' :
  mgr_find_or_create_block_for_array blocks arr ctx s = (r, s') ->
  st_tree s' = st_tree s /\
  forall b, In b (st_blocks s') -> accounted hdulist s [arr] b.
Proof.
  simpl. rewrite find_or_create_hosted.
  destruct (hosted hdulist arr) as [hdu|] eqn:Hh.
  - intros [= <- <-]. split; [done|]. intros b Hb. by left.
  - simpl. unfold BlockManager.find_or_create_block_for_array.
    destruct (List.find _ (st_blocks s)) as [bb|].
    + intros [= <- <-]. split; [done|]. intros b Hb. by left.
    + intros [= <- <-]. split; [done|]. simpl.
      intros b [Hb|[<-|[]]]%in_app_or; [by left|].
      right. exists arr. simpl. auto.
Qed.

Lemma describe_blocks arr s r s' :
  AsdfFile.describe blocks ctx arr s = (r, s') ->
  st_tree s' = st_tree s /\
  forall b, In b (st_blocks s') -> accounted hdulist s [arr] b.
Proof.
  unfold AsdfFile.describe. intros Hres.
  apply bind_inv in Hres as [(e & Hfc & ->)|(b & s1 & Hfc & Hres)];
    [by apply find_or_create_blocks in Hfc|].
  apply find_or_create_blocks in Hfc.
  assert (s' = s1) as ->; [|done].
  assert (forall src0, (src ← mgr_get_source blocks src0; mret (DescSource src)) s1
                       = (r, s') -> s' = s1) as Hnamed.
  { intros src0 [(e & Hgs & ->)|(src & s2 & Hgs & [= <- <-])]%bind_inv;
      pose proof (get_source_state src0 s1) as Hs; by rewrite Hgs in Hs. }
  destruct b as [i _hdu|[bi bbase bdata [|]]]; [by eapply Hnamed..|].
  by injection Hres.
Qed.

Lemma accounted_mono before arr arrs b :
  accounted hdulist before [arr] b \/
  (exists s1, (forall b', In b' (st_blocks s1) -> accounted hdulist before [arr] b') /\
              accounted hdulist s1 arrs b) ->
  accounted hdulist before (arr :: arrs) b.
Proof.
  intros [[Hb|(a & [<-|[]] & Hh & Hbase)]|(s1 & Hs1 & [Hb|(a & Ha & Hh & Hbase)])].
  - by left.
  - right. exists arr. simpl. auto.
  - destruct (Hs1 b Hb) as [?|(a & [<-|[]] & Hh & Hbase)]; [by left|].
    right. exists arr. simpl. auto.
  - right. exists a. simpl. auto.
Qed.

Lemma describe_all_blocks arrs s r s' :
  AsdfFile.describe_all blocks ctx arrs s = (r, s') ->
  st_tree s' = st_tree s /\
  forall b, In b (st_blocks s') -> accounted hdulist s arrs b.
Proof.
  revert s r s'. induction arrs as [|arr arrs IH]; intros s r s'.
  - intros [= <- <-]. split; [done|]. intros b Hb. by left.
  - simpl. intros [(e & Hd & ->)|(d & s1 & Hd & Hres)]%bind_inv.
    + apply describe_blocks in Hd as [Htree Hacc]. split; [done|].
      intros b Hb. apply accounted_mono. left. by apply Hacc.
    + apply describe_blocks in Hd as [Htree1 Hacc1].
      assert (exists r2, AsdfFile.describe_all blocks ctx arrs s1 = (r2, s'))
        as [r2 Hds].
      { apply bind_inv in Hres as [(e & Hds & ->)|(ds & s2 & Hds & [= <- <-])];
          eauto. }
      apply IH in Hds as [Htree2 Hacc2]. split; [congruence|].
      intros b Hb. apply accounted_mono. right. exists s1. auto.
Qed.
End WritePass.

(** ** The embedded document: [_update_asdf_extension] *)

Section Update.
Variable super : document_class.
Variable base : manager.
Variable ctx : options.
Implicit Types (self : AsdfInFits.t) (st : state) (payload : list Byte.byte).

Local Abbreviation serialize self :=
  (cls_write_to super (AsdfInFits._blocks base (AsdfInFits._hdulist self)) ctx
     (AsdfInFits.asdf self)).

(** The array [np.frombuffer] makes of the payload. *)
Local Abbreviation array_of st payload :=
  {| nd_id := st_next st; nd_bytes := payload |}.

Lemma update_failure self e st :
  serialize self = (inl e, st) ->
  AsdfInFits._update_asdf_extension super base ctx self
  = (inl e, {| AsdfInFits.asdf := st;
               AsdfInFits._hdulist := AsdfInFits._hdulist self;
               AsdfInFits.files := AsdfInFits.files self |}).
Proof.
  unfold AsdfInFits._update_asdf_extension, mbind, ST_bind.
  unfold AsdfInFits.on_asdf at 1. by intros ->.
Qed.

Lemma update_replace self payload st old :
  serialize self = (inr payload, st) ->
  hdulist_getitem (AsdfInFits._hdulist self)
    (KeyName AsdfInFits.ASDF_EXTENSION_NAME) = inr old ->
  AsdfInFits._update_asdf_extension super base ctx self
  = (inr tt,
     {| AsdfInFits.asdf := allocated st;
        AsdfInFits._hdulist :=
          List.map (fun h => if bool_decide (hdu_id h = hdu_id old)
                             then AsdfInFits.with_data (array_of st payload) h
                             else h) (AsdfInFits._hdulist self);
        AsdfInFits.files := AsdfInFits.files self |}).
Proof.
  unfold AsdfInFits._update_asdf_extension, mbind, ST_bind.
  unfold AsdfInFits.on_asdf at 1. intros -> Hget.
  unfold AsdfInFits.frombuffer, AsdfInFits.on_asdf, try_lookup.
  simpl. unfold AsdfInFits.getitem. simpl. by rewrite Hget.
Qed.

Lemma update_create self payload st e :
  serialize self = (inr payload, st) ->
  hdulist_getitem (AsdfInFits._hdulist self)
    (KeyName AsdfInFits.ASDF_EXTENSION_NAME) = inl e ->
  AsdfInFits._update_asdf_extension super base ctx self
  = (inr tt,
     {| AsdfInFits.asdf := allocated (allocated st);
        AsdfInFits._hdulist :=
          (AsdfInFits._hdulist self ++
           [ {| hdu_id := S (st_next st);
                hdu_name := AsdfInFits.ASDF_EXTENSION_NAME; hdu_ver := 1;
                hdu_data := array_of st payload |} ])%list;
        AsdfInFits.files := AsdfInFits.files self |}).
Proof.
  unfold AsdfInFits._update_asdf_extension, mbind, ST_bind.
  unfold AsdfInFits.on_asdf at 1. intros -> Hget.
  apply hdulist_getitem_error in Hget as Herr. subst e.
  unfold AsdfInFits.frombuffer, AsdfInFits.on_asdf, try_lookup.
  simpl. unfold AsdfInFits.getitem. simpl. by rewrite Hget.
Qed.
End Update.

(** ** The lookup after the container was changed *)

Lemma find_map_preserving {A} (f : A -> bool) (g : A -> A) (l : list A) :
  (forall x, f (g x) = f x) ->
  List.find f (List.map g l) = option_map g (List.find f l).
Proof.
  intros Hfg. induction l as [|x l IH]; simpl; [done|].
  rewrite Hfg. by destruct (f x).
Qed.

Lemma find_snoc {A} (f : A -> bool) (l : list A) (x : A) :
  List.find f (l ++ [x])%list
  = match List.find f l with
    | Some y => Some y
    | None => if f x then Some x else None
    end.
Proof. induction l as [|y l IH]; simpl; [done|]. by destruct (f y). Qed.

Section LookupAfter.
Implicit Types (hl : HDUList) (k : hdu_key) (h old : HDU) (array : ndarray).

Lemma answers_set_data idx k old array h :
  answers idx k (if bool_decide (hdu_id h = hdu_id old)
                 then AsdfInFits.with_data array h else h)
  = answers idx k h.
Proof. by destruct (bool_decide _). Qed.

Lemma normalise_ASDF : normalise "ASDF" = "ASDF".
Proof. reflexivity. Qed.

Lemma getitem_ASDF_name hl old :
  hdulist_getitem hl (KeyName "ASDF") = inr old ->
  In old hl /\ normalise (hdu_name old) = "ASDF".
Proof.
  unfold hdulist_getitem.
  destruct (index_of_from 0 _ hl) as [h|] eqn:Hfind; [|done]. intros [= ->].
  split; [by eapply index_of_from_In|].
  apply index_of_from_Some in Hfind as (j & _ & Ha & _).
  apply answers_inv in Ha as [[Hn|[Hp _]] _]; [done|discriminate Hp].
Qed.

Lemma getitem_ASDF_absent hl e :
  hdulist_getitem hl (KeyName "ASDF") = inl e ->
  forall h, In h hl -> normalise (hdu_name h) <> "ASDF".
Proof.
  unfold hdulist_getitem.
  destruct (index_of_from 0 _ hl) as [?|] eqn:Hfind; [done|]. intros _ h Hin Hn.
  destruct (List.In_nth_error _ _ Hin) as [j Hj].
  rewrite index_of_from_None in Hfind. specialize (Hfind j h Hj).
  by rewrite answers_named in Hfind.
Qed.

Lemma answers_ASDF idx h :
  answers idx (KeyName "ASDF") h = bool_decide (normalise (hdu_name h) = "ASDF").
Proof.
  unfold answers. cbn [key_name key_ver]. rewrite normalise_ASDF.
  rewrite (bool_decide_eq_false_2 ("ASDF" = "PRIMARY")) by done.
  by rewrite orb_false_r, andb_true_r.
Qed.

Lemma getitem_ASDF_find hl :
  hdulist_getitem hl (KeyName "ASDF")
  = match List.find (fun hdu => bool_decide (normalise (hdu_name hdu) = "ASDF")) hl with
    | Some h => inr h
    | None => inl KeyError
    end.
Proof.
  unfold hdulist_getitem. generalize O.
  induction hl as [|x hl IH]; intros idx; simpl; [done|].
  rewrite answers_ASDF. destruct (bool_decide _); [done|]. apply IH.
Qed.

Lemma getitem_set_data hl k old array :
  hdulist_getitem
    (List.map (fun h => if bool_decide (hdu_id h = hdu_id old)
                        then AsdfInFits.with_data array h else h) hl) k
  = match hdulist_getitem hl k with
    | inr h => inr (if bool_decide (hdu_id h = hdu_id old)
                    then AsdfInFits.with_data array h else h)
    | inl e => inl e
    end.
Proof.
  unfold hdulist_getitem. rewrite index_of_from_map.
  - by destruct (index_of_from 0 k hl).
  - intros i h. apply answers_set_data.
Qed.

Lemma getitem_append hl k x :
  hdulist_getitem (hl ++ [x])%list k
  = match hdulist_getitem hl k with
    | inr h => inr h
    | inl e => if answers (length hl) k x then inr x else inl KeyError
    end.
Proof.
  unfold hdulist_getitem. rewrite index_of_from_snoc.
  destruct (index_of_from 0 k hl); [done|]. simpl.
  by destruct (answers (length hl) k x).
Qed.
End LookupAfter.

(** C5.  [write_to_stream] raises [NotImplementedError] for every argument
    and every state, and does nothing else: the document, the host container
    and the files are the ones before the call. *)
Theorem write_to_stream_unsupported (data : list Byte.byte) (self : AsdfInFits.t) :
  AsdfInFits.write_to_stream data self
  = (inl (NotImplementedError
            "Can not stream data to an ASDF file embedded in a FITS file"),
     self).
Proof. reflexivity. Qed.

(** C6, the counterexample.  The tree holds two arrays over the memory of
    the section [SCI]: a plain view, which the adapter answers with a wrapper
    and which is written as the reference [fits:SCI,1], and an array read from
    a file (an [NDArrayType]), which goes to the base manager and gets an
    internal block holding the bytes of the section.  The payload that
    [update] stores in the section [ASDF] holds those bytes, beside the
    reference to the section they belong to. *)
Lemma payload_duplicates_host_bytes :
  AsdfFile.describe_all
    (AsdfInFits._blocks BlockManager.as_manager Scenario.hdulist) Scenario.defaults
    (AsdfFile.arrays_of (st_tree Scenario.two_arrays)) Scenario.two_arrays
  = (inr [DescSource (SrcStr "fits:SCI,1"); DescSource (SrcInt 0)],
     {| st_next := 22; st_tree := st_tree Scenario.two_arrays; st_uri := None;
        st_blocks := [ {| blk_id := 21; blk_base := nd_id (hdu_data Scenario.sci);
                          blk_data := nd_bytes (hdu_data Scenario.sci);
                          blk_storage := Internal |} ] |})
  /\ exists (self' : AsdfInFits.t) (section : HDU),
       AsdfInFits.update Scenario.cls BlockManager.as_manager Scenario.defaults
         Scenario.shared = (inr tt, self') /\
       hdulist_getitem (AsdfInFits._hdulist self') (KeyName "ASDF") = inr section /\
       nd_bytes (hdu_data section)
       = (["#"%byte; "#"%byte] ++ nd_bytes (hdu_data Scenario.sci))%list /\
       hdulist_getitem (AsdfInFits._hdulist self') (KeyNameVer "SCI" 1)
       = inr Scenario.sci.
Proof.
  split; [reflexivity|].
  eexists _, _. split; [reflexivity|]. split_and!; reflexivity.
Qed.

(** C6, as the code has it.  When the base class serializes the document to
    [payload], [update] succeeds and [write_to] goes on to write the container
    to the file; after either, the section that the container gives for the
    name [ASDF] holds exactly [payload].  If the container had such a section
    it is that same section, with its data replaced and nothing else of the
    container changed; if it had none, the section is new, is named [ASDF] and
    is appended.  In the serialization of the base format, the payload is the
    encoding of the tree and of the internal blocks of the registry, and every
    block of the registry was there before or belongs to an array that the
    adapter did not answer with a wrapper; so when the registry was empty and
    every array of the tree is answered with a wrapper of a section, the
    payload holds no block at all. *)
Theorem update_packs_payload (ctx : options) (self : AsdfInFits.t) :
  (forall (super : document_class) (base : manager)
          (payload : list Byte.byte) (st : state),
      cls_write_to super (AsdfInFits._blocks base (AsdfInFits._hdulist self)) ctx
        (AsdfInFits.asdf self) = (inr payload, st) ->
      exists (self' : AsdfInFits.t) (section : HDU),
        AsdfInFits.update super base ctx self = (inr tt, self') /\
        (forall filename,
            AsdfInFits.write_to super base filename ctx self
            = AsdfInFits.writeto filename self') /\
        hdulist_getitem (AsdfInFits._hdulist self') (KeyName "ASDF") = inr section /\
        normalise (hdu_name section) = "ASDF" /\
        nd_bytes (hdu_data section) = payload /\
        match hdulist_getitem (AsdfInFits._hdulist self) (KeyName "ASDF") with
        | inr old =>
            hdu_id section = hdu_id old /\ hdu_name section = hdu_name old /\
            hdu_ver section = hdu_ver old /\
            AsdfInFits._hdulist self'
            = List.map (fun h => if bool_decide (hdu_id h = hdu_id old)
                                 then AsdfInFits.with_data (hdu_data section) h
                                 else h) (AsdfInFits._hdulist self)
        | inl _ =>
            hdu_name section = "ASDF" /\
            (forall hdu, In hdu (AsdfInFits._hdulist self) ->
                         normalise (hdu_name hdu) <> "ASDF") /\
            AsdfInFits._hdulist self' = (AsdfInFits._hdulist self ++ [section])%list
        end) /\
  (forall (encode : tree -> list descriptor -> list Block -> options -> list Byte.byte)
          (payload : list Byte.byte) (st : state),
      AsdfFile.write_to
        (AsdfInFits._blocks BlockManager.as_manager (AsdfInFits._hdulist self))
        ctx encode (AsdfInFits.asdf self) = (inr payload, st) ->
      (exists ds, payload = encode (st_tree st) ds (BlockManager.internal_blocks st) ctx) /\
      st_tree st = st_tree (AsdfInFits.asdf self) /\
      (forall b, In b (BlockManager.internal_blocks st) ->
                 accounted (AsdfInFits._hdulist self) (AsdfInFits.asdf self)
                   (AsdfFile.arrays_of (st_tree (AsdfInFits.asdf self))) b) /\
      (st_blocks (AsdfInFits.asdf self) = [] ->
       (forall arr, In arr (AsdfFile.arrays_of (st_tree (AsdfInFits.asdf self))) ->
                    exists hdu, hosted (AsdfInFits._hdulist self) arr = Some hdu) ->
       BlockManager.internal_blocks st = [])).
Proof.
  split.
  - intros super base payload st Hser.
    destruct (hdulist_getitem (AsdfInFits._hdulist self) (KeyName "ASDF"))
      as [e|old] eqn:Hget.
    + eexists _, {| hdu_id := S (st_next st); hdu_name := "ASDF"; hdu_ver := 1;
                    hdu_data := {| nd_id := st_next st; nd_bytes := payload |} |}.
      unfold AsdfInFits.update, AsdfInFits.write_to.
      unfold mbind at 1, ST_bind at 1.
      rewrite (update_create _ _ _ _ _ _ _ Hser Hget).
      split_and!; try done; [|by eapply getitem_ASDF_absent].
      cbv [AsdfInFits._hdulist]. rewrite getitem_append.
      fold (AsdfInFits._hdulist self). by rewrite Hget.
    + eexists _, (AsdfInFits.with_data {| nd_id := st_next st; nd_bytes := payload |} old).
      unfold AsdfInFits.update, AsdfInFits.write_to.
      unfold mbind at 1, ST_bind at 1.
      rewrite (update_replace _ _ _ _ _ _ _ Hser Hget).
      destruct (getitem_ASDF_name _ _ Hget) as [_ Hname].
      split_and!; try done.
      cbv [AsdfInFits._hdulist]. rewrite getitem_set_data.
      fold (AsdfInFits._hdulist self). rewrite Hget.
      by rewrite bool_decide_eq_true_2.
  - intros encode payload st. unfold AsdfFile.write_to.
    destruct (AsdfFile.describe_all _ _ _ _) as [[e|ds] s'] eqn:Hds; [done|].
    intros [= <- <-].
    apply describe_all_blocks in Hds as [Htree Hacc].
    assert (forall b, In b (BlockManager.internal_blocks s') ->
                      accounted (AsdfInFits._hdulist self) (AsdfInFits.asdf self)
                        (AsdfFile.arrays_of (st_tree (AsdfInFits.asdf self))) b)
      as Hint.
    { intros b Hb. apply Hacc.
      unfold BlockManager.internal_blocks in Hb.
      by apply List.filter_In in Hb as [? _]. }
    split_and!; [by exists ds|done|done|].
    intros Hempty Hhosted.
    destruct (BlockManager.internal_blocks s') as [|b bs]; [done|].
    destruct (Hint b (or_introl eq_refl)) as [Hb|(arr & Harr & Hnone & _)].
    + by rewrite Hempty in Hb.
    + destruct (Hhosted arr Harr) as [hdu Hh]. congruence.
Qed.

Lemma update_packs_payload_witness :
  (exists (self' : AsdfInFits.t) (section : HDU),
      AsdfInFits.update Scenario.cls BlockManager.as_manager Scenario.defaults
        Scenario.embedded = (inr tt, self') /\
      (forall filename,
          AsdfInFits.write_to Scenario.cls BlockManager.as_manager filename
            Scenario.defaults Scenario.embedded
          = AsdfInFits.writeto filename self') /\
      hdulist_getitem (AsdfInFits._hdulist self') (KeyName "ASDF") = inr section /\
      normalise (hdu_name section) = "ASDF" /\
      nd_bytes (hdu_data section) = ["#"%byte] /\
      match hdulist_getitem (AsdfInFits._hdulist Scenario.embedded)
              (KeyName "ASDF") with
      | inr old =>
          hdu_id section = hdu_id old /\ hdu_name section = hdu_name old /\
          hdu_ver section = hdu_ver old /\
          AsdfInFits._hdulist self'
          = List.map (fun h => if bool_decide (hdu_id h = hdu_id old)
                               then AsdfInFits.with_data (hdu_data section) h
                               else h) (AsdfInFits._hdulist Scenario.embedded)
      | inl _ =>
          hdu_name section = "ASDF" /\
          (forall hdu, In hdu (AsdfInFits._hdulist Scenario.embedded) ->
                       normalise (hdu_name hdu) <> "ASDF") /\
          AsdfInFits._hdulist self'
          = (AsdfInFits._hdulist Scenario.embedded ++ [section])%list
      end) /\
  ((exists ds,
       ["#"%byte]
       = Scenario.encode (st_tree (allocated Scenario.one_array)) ds
           (BlockManager.internal_blocks (allocated Scenario.one_array))
           Scenario.defaults) /\
   st_tree (allocated Scenario.one_array)
   = st_tree (AsdfInFits.asdf Scenario.embedded) /\
   (forall b, In b (BlockManager.internal_blocks (allocated Scenario.one_array)) ->
              accounted (AsdfInFits._hdulist Scenario.embedded)
                (AsdfInFits.asdf Scenario.embedded)
                (AsdfFile.arrays_of (st_tree (AsdfInFits.asdf Scenario.embedded))) b) /\
   BlockManager.internal_blocks (allocated Scenario.one_array) = []).
Proof.
  split.
  - exact (proj1 (update_packs_payload Scenario.defaults Scenario.embedded)
             Scenario.cls BlockManager.as_manager ["#"%byte]
             (allocated Scenario.one_array) eq_refl).
  - destruct (proj2 (update_packs_payload Scenario.defaults Scenario.embedded)
                Scenario.encode ["#"%byte] (allocated Scenario.one_array) eq_refl)
      as (Hds & Htree & Hacc & Hnone).
    split_and!; [done..|]. apply Hnone; [reflexivity|].
    intros arr [<-|[]]. by exists Scenario.sci.
Defined.

(** C9.  [update] serializes first.  If the serialization raises, the error
    is the outcome of [update], and of [write_to], and the host container and
    the files are exactly the ones before the call.  If it succeeds, every
    section of the container is still at its position with its identity, name
    and version, and every section other than the one the container gives for
    [ASDF] is unchanged altogether. *)
Theorem update_atomic_frame
    (super : document_class) (base : manager) (ctx : options) (self : AsdfInFits.t) :
  (forall (e : exn) (st : state),
      cls_write_to super (AsdfInFits._blocks base (AsdfInFits._hdulist self)) ctx
        (AsdfInFits.asdf self) = (inl e, st) ->
      exists self',
        AsdfInFits.update super base ctx self = (inl e, self') /\
        (forall filename,
            AsdfInFits.write_to super base filename ctx self = (inl e, self')) /\
        AsdfInFits._hdulist self' = AsdfInFits._hdulist self /\
        AsdfInFits.files self' = AsdfInFits.files self) /\
  (forall (payload : list Byte.byte) (st : state),
      cls_write_to super (AsdfInFits._blocks base (AsdfInFits._hdulist self)) ctx
        (AsdfInFits.asdf self) = (inr payload, st) ->
      exists self',
        AsdfInFits.update super base ctx self = (inr tt, self') /\
        AsdfInFits.files self' = AsdfInFits.files self /\
        forall (i : nat) (hdu : HDU),
          nth_error (AsdfInFits._hdulist self) i = Some hdu ->
          exists hdu',
            nth_error (AsdfInFits._hdulist self') i = Some hdu' /\
            hdu_id hdu' = hdu_id hdu /\ hdu_name hdu' = hdu_name hdu /\
            hdu_ver hdu' = hdu_ver hdu /\
            ((forall old,
                 hdulist_getitem (AsdfInFits._hdulist self) (KeyName "ASDF")
                 = inr old -> hdu_id hdu <> hdu_id old) ->
             hdu' = hdu)).
Proof.
  split.
  - intros e st Hser. eexists.
    unfold AsdfInFits.update, AsdfInFits.write_to.
    unfold mbind at 1, ST_bind at 1.
    rewrite (update_failure _ _ _ _ _ _ Hser). done.
  - intros payload st Hser.
    destruct (hdulist_getitem (AsdfInFits._hdulist self) (KeyName "ASDF"))
      as [e|old] eqn:Hget.
    + eexists. unfold AsdfInFits.update.
      rewrite (update_create _ _ _ _ _ _ _ Hser Hget).
      split_and!; [done..|]. simpl. intros i hdu Hnth. exists hdu.
      split_and!; try done.
      rewrite List.nth_error_app1; [done|].
      apply List.nth_error_Some. congruence.
    + eexists. unfold AsdfInFits.update.
      rewrite (update_replace _ _ _ _ _ _ _ Hser Hget).
      split_and!; [done..|]. simpl. intros i hdu Hnth.
      eexists. rewrite List.nth_error_map, Hnth. simpl.
      split; [done|].
      destruct (bool_decide (hdu_id hdu = hdu_id old)) eqn:Hid; simpl.
      * split_and!; try done. intros Hother.
        apply bool_decide_eq_true in Hid. by destruct (Hother old).
      * done.
Qed.

Lemma update_atomic_frame_witness :
  (exists self',
      AsdfInFits.update Scenario.failing BlockManager.as_manager Scenario.defaults
        Scenario.self = (inl (ValueError "unknown codec"), self') /\
      (forall filename,
          AsdfInFits.write_to Scenario.failing BlockManager.as_manager filename
            Scenario.defaults Scenario.self
          = (inl (ValueError "unknown codec"), self')) /\
      AsdfInFits._hdulist self' = AsdfInFits._hdulist Scenario.self /\
      AsdfInFits.files self' = AsdfInFits.files Scenario.self) /\
  (exists self',
      AsdfInFits.update Scenario.cls BlockManager.as_manager Scenario.defaults
        Scenario.self = (inr tt, self') /\
      AsdfInFits.files self' = AsdfInFits.files Scenario.self /\
      forall (i : nat) (hdu : HDU),
        nth_error (AsdfInFits._hdulist Scenario.self) i = Some hdu ->
        exists hdu',
          nth_error (AsdfInFits._hdulist self') i = Some hdu' /\
          hdu_id hdu' = hdu_id hdu /\ hdu_name hdu' = hdu_name hdu /\
          hdu_ver hdu' = hdu_ver hdu /\
          ((forall old,
               hdulist_getitem (AsdfInFits._hdulist Scenario.self) (KeyName "ASDF")
               = inr old -> hdu_id hdu <> hdu_id old) ->
           hdu' = hdu)).
Proof.
  split.
  - exact (proj1 (update_atomic_frame Scenario.failing BlockManager.as_manager
                    Scenario.defaults Scenario.self)
             (ValueError "unknown codec") Scenario.empty eq_refl).
  - exact (proj2 (update_atomic_frame Scenario.cls BlockManager.as_manager
                    Scenario.defaults Scenario.self)
             [] Scenario.empty eq_refl).
Defined.

(** C10.  Reading a host container that has no section named [ASDF] does not
    fail and decodes nothing: the result is a new document with the empty
    tree, bound to that container.  When the container has such a section,
    the result is what [_read_impl] makes of the bytes of the first one.  The
    name of a section is compared as the container compares it, stripped and
    in upper case. *)
Theorem read_without_extension
    (super : document_class) (next : oid) (hdulist : HDUList)
    (uri : option string) (validate_checksums : bool)
    (fs : list (string * HDUList)) :
  ((forall hdu, In hdu hdulist -> normalise (hdu_name hdu) <> "ASDF") ->
   exists self,
     AsdfInFits.read super next hdulist uri validate_checksums fs = inr self /\
     st_tree (AsdfInFits.asdf self) = Node [] /\
     st_blocks (AsdfInFits.asdf self) = [] /\
     st_uri (AsdfInFits.asdf self) = uri /\
     AsdfInFits._hdulist self = hdulist /\
     AsdfInFits.files self = fs) /\
  (forall asdf_extension,
      List.find (fun hdu => bool_decide (normalise (hdu_name hdu) = "ASDF")) hdulist
      = Some asdf_extension ->
      AsdfInFits.read super next hdulist uri validate_checksums fs
      = match cls_read_impl super (AsdfFile.init next None None) hdulist
                (nd_bytes (hdu_data asdf_extension)) uri validate_checksums with
        | inr st => inr {| AsdfInFits.asdf := st; AsdfInFits._hdulist := hdulist;
                           AsdfInFits.files := fs |}
        | inl e => inl e
        end).
Proof.
  split.
  - intros Habsent. eexists. unfold AsdfInFits.read.
    change AsdfInFits.ASDF_EXTENSION_NAME with "ASDF".
    rewrite getitem_ASDF_find, find_none_iff; [done|].
    intros hdu Hin. apply bool_decide_eq_false. by apply Habsent.
  - intros ext Hfind. unfold AsdfInFits.read.
    change AsdfInFits.ASDF_EXTENSION_NAME with "ASDF".
    by rewrite getitem_ASDF_find, Hfind.
Qed.

Lemma read_without_extension_witness :
  (exists self,
      AsdfInFits.read Scenario.failing 20 Scenario.hdulist (Some "file.fits")
        false [] = inr self /\
      st_tree (AsdfInFits.asdf self) = Node [] /\
      st_blocks (AsdfInFits.asdf self) = [] /\
      st_uri (AsdfInFits.asdf self) = Some "file.fits" /\
      AsdfInFits._hdulist self = Scenario.hdulist /\
      AsdfInFits.files self = []) /\
  AsdfInFits.read Scenario.cls 20 (Scenario.hdulist ++ [Scenario.asdf_hdu])%list
    None false []
  = match cls_read_impl Scenario.cls (AsdfFile.init 20 None None)
            (Scenario.hdulist ++ [Scenario.asdf_hdu])%list
            (nd_bytes (hdu_data Scenario.asdf_hdu)) None false with
    | inr st => inr {| AsdfInFits.asdf := st;
                       AsdfInFits._hdulist :=
                         (Scenario.hdulist ++ [Scenario.asdf_hdu])%list;
                       AsdfInFits.files := [] |}
    | inl e => inl e
    end /\
  AsdfInFits.read Scenario.cls 20
    [Scenario.primary; Scenario.asdf_lower; Scenario.asdf_hdu] None false []
  = match cls_read_impl Scenario.cls (AsdfFile.init 20 None None)
            [Scenario.primary; Scenario.asdf_lower; Scenario.asdf_hdu]
            (nd_bytes (hdu_data Scenario.asdf_lower)) None false with
    | inr st => inr {| AsdfInFits.asdf := st;
                       AsdfInFits._hdulist :=
                         [Scenario.primary; Scenario.asdf_lower; Scenario.asdf_hdu];
                       AsdfInFits.files := [] |}
    | inl e => inl e
    end.
Proof.
  split_and!.
  - apply (proj1 (read_without_extension Scenario.failing 20%nat Scenario.hdulist
                    (Some "file.fits") false [])).
    intros hdu [<-|[<-|[]]] Hname; discriminate Hname.
  - exact (proj2 (read_without_extension Scenario.cls 20%nat
                    (Scenario.hdulist ++ [Scenario.asdf_hdu])%list None false [])
             Scenario.asdf_hdu eq_refl).
  - exact (proj2 (read_without_extension Scenario.cls 20%nat
                    [Scenario.primary; Scenario.asdf_lower; Scenario.asdf_hdu]
                    None false [])
             Scenario.asdf_lower eq_refl).
Defined.


(** * Further properties of the module *)

(** ** What the pattern of the scheme accepts *)

(** X1.  [re.match] with the pattern of [get_block] succeeds exactly on the
    strings that start with a name, a non-empty word over [[A-Z0-9]], and the
    groups are greedy: the name is followed by nothing of its class, the
    version is a non-empty word of digits followed by no digit, and without a
    version what follows the name is not a comma and a digit. *)
Theorem re_match_source_characterised (s : string) (g : re_groups) :
  re_match_source s = Some g <->
  exists rest,
    s = group_name g
        +:+ match group_ver g with Some v => "," +:+ v | None => "" end
        +:+ rest /\
    group_name g <> "" /\ all_in is_upper_or_digit (group_name g) = true /\
    match group_ver g with
    | Some v => v <> "" /\ all_in is_digit v = true /\ stops is_digit rest
    | None => no_version rest
    end.
Proof.
  split; [apply re_match_source_prefix|].
  destruct g as [name [ver|]]; simpl; intros (rest & -> & Hn & Hname & Hrest).
  - destruct Hrest as (Hv & Hver & Hstop). by apply re_match_name_ver.
  - by apply re_match_name_junk.
Qed.

Lemma re_match_source_characterised_witness :
  re_match_source "SCI,12;x" = Some {| group_name := "SCI"; group_ver := Some "12" |}
  /\ exists rest,
       "SCI image" = "SCI" +:+ "" +:+ rest /\
       "SCI" <> "" /\ all_in is_upper_or_digit "SCI" = true /\ no_version rest.
Proof.
  split.
  - apply (proj2 (re_match_source_characterised "SCI,12;x"
                    {| group_name := "SCI"; group_ver := Some "12" |})).
    exists ";x". simpl. repeat split; done.
  - exact (proj1 (re_match_source_characterised "SCI image"
                    {| group_name := "SCI"; group_ver := None |}) eq_refl).
Defined.

(** ** Versions that the scheme does not carry *)

Lemma pretty_negative (v : Z) :
  v < 0 -> exists d, pretty v = String "-" d.
Proof.
  destruct v as [|p|p]; [lia|lia|]. intros _.
  exists (pretty p). reflexivity.
Qed.

(** X2.  A negative version does not survive the scheme: the source that
    [get_source] writes for a section with a negative version is resolved by
    [get_block] as the name alone, the minus sign not being a digit. *)
Theorem get_block_negative_version
    (super : manager) (hdulist : HDUList) (name : string) (ver : Z) (s : state) :
  name <> "" -> all_in is_upper_or_digit name = true -> ver < 0 ->
  EmbeddedBlockManager.get_block super hdulist (SrcStr (format_fits name ver)) s
  = EmbeddedBlockManager.get_block super hdulist (SrcStr ("fits:" +:+ name)) s.
Proof.
  intros Hn Hname Hver. destruct (pretty_negative ver Hver) as [d Hd].
  unfold format_fits. rewrite Hd.
  rewrite (get_block_matched _ _ _ {| group_name := name; group_ver := None |}).
  - symmetry. by rewrite get_block_name by done.
  - apply re_match_name_junk; [done..|]. split; [done|].
    intros rest [= <-]. done.
Qed.

Lemma get_block_negative_version_witness :
  EmbeddedBlockManager.get_block BlockManager.as_manager
    [Scenario.err_2; Scenario.err_1] (SrcStr (format_fits "ERR" (-1))) Scenario.empty
  = EmbeddedBlockManager.get_block BlockManager.as_manager
      [Scenario.err_2; Scenario.err_1] (SrcStr ("fits:" +:+ "ERR")) Scenario.empty.
Proof.
  apply get_block_negative_version; [done|reflexivity|lia].
Defined.

(** ** Resolving a source and naming the block *)

Lemma held_once_find (hdulist : HDUList) (hdu : HDU) :
  In hdu hdulist -> held_once hdulist hdu ->
  find_hdu_is hdulist (hdu_id hdu) = Some hdu.
Proof.
  intros Hin Honce.
  destruct (find_first_match (fun h => bool_decide (hdu_id h = hdu_id hdu))
              hdulist hdu Hin) as (h & Hfind & Hin' & Hid).
  { by apply bool_decide_eq_true. }
  apply bool_decide_eq_true in Hid. unfold find_hdu_is.
  by rewrite Hfind, (Honce h Hin' Hid).
Qed.

(** [get_source(get_block(src))] *)
Lemma get_source_of_wrapper (super : manager) (hdulist : HDUList)
    (src : source) (i : oid) (hdu : HDU) (s s1 : state) :
  EmbeddedBlockManager.get_block super hdulist src s = (inr (FitsBlock i hdu), s1) ->
  In hdu hdulist -> held_once hdulist hdu ->
  (b ← EmbeddedBlockManager.get_block super hdulist src;
   EmbeddedBlockManager.get_source super hdulist b) s
  = (inr (SrcStr (format_fits (hdu_name hdu) (hdu_ver hdu))), s1).
Proof.
  intros Hget Hin Honce. unfold mbind, ST_bind. rewrite Hget. simpl.
  by rewrite held_once_find.
Qed.

(** What the lookup says of the section it gives. *)
Lemma getitem_found (hdulist : HDUList) (k : hdu_key) (hdu : HDU) :
  all_in is_upper_or_digit (key_name k) = true ->
  hdulist_getitem hdulist k = inr hdu ->
  In hdu hdulist /\
  (normalise (hdu_name hdu) = key_name k \/
   (key_name k = "PRIMARY" /\ nth_error hdulist 0 = Some hdu)) /\
  (forall v, key_ver k = Some v -> hdu_ver hdu = v).
Proof.
  intros Hname. unfold hdulist_getitem.
  destruct (index_of_from 0 k hdulist) as [h|] eqn:Hfind; [|done]. intros [= ->].
  split; [by eapply index_of_from_In|].
  apply index_of_from_Some in Hfind as (j & Hj & Ha & _).
  apply answers_inv in Ha as [Hnm Hv]. rewrite (normalise_word (key_name k)) in Hnm by done.
  split; [|done]. destruct Hnm as [?|[? Hj0]]; [by left|].
  simpl in Hj0. subst j. by right.
Qed.

(** X3.  Naming the block that a source resolves to gives the source in its
    canonical form.  The name is the one the section holds: it is the name of
    the source once stripped and put in upper case, unless the source names
    [PRIMARY] and the section is the first of the container.  The version is
    printed without leading zeros, and a source without a version comes back
    with the version of the section that was found.  The container is taken to
    hold that section once. *)
Theorem get_source_canonical (super : manager) (hdulist : HDUList) (s : state) :
  (forall (name ver : string) (hdu : HDU),
      name <> "" -> all_in is_upper_or_digit name = true ->
      ver <> "" -> all_in is_digit ver = true ->
      hdulist_getitem hdulist (KeyNameVer name (int_of_digits ver)) = inr hdu ->
      held_once hdulist hdu ->
      (b ← EmbeddedBlockManager.get_block super hdulist
             (SrcStr ("fits:" +:+ name +:+ "," +:+ ver));
       EmbeddedBlockManager.get_source super hdulist b) s
      = (inr (SrcStr ("fits:" +:+ hdu_name hdu +:+ ","
                      +:+ pretty (int_of_digits ver))),
         allocated s) /\
      (normalise (hdu_name hdu) = name \/
       (name = "PRIMARY" /\ nth_error hdulist 0 = Some hdu))) /\
  (forall (name : string) (hdu : HDU),
      name <> "" -> all_in is_upper_or_digit name = true ->
      hdulist_getitem hdulist (KeyName name) = inr hdu ->
      held_once hdulist hdu ->
      (b ← EmbeddedBlockManager.get_block super hdulist (SrcStr ("fits:" +:+ name));
       EmbeddedBlockManager.get_source super hdulist b) s
      = (inr (SrcStr ("fits:" +:+ hdu_name hdu +:+ "," +:+ pretty (hdu_ver hdu))),
         allocated s) /\
      (normalise (hdu_name hdu) = name \/
       (name = "PRIMARY" /\ nth_error hdulist 0 = Some hdu))).
Proof.
  split.
  - intros name ver hdu Hn Hname Hv Hver Hget Honce.
    destruct (getitem_found _ (KeyNameVer name (int_of_digits ver)) _ Hname Hget)
      as (Hin & Hnm & Hvm).
    specialize (Hvm _ eq_refl). split; [|done].
    rewrite (get_source_of_wrapper _ _ _ (st_next s) hdu _ (allocated s)); try done.
    + unfold format_fits. by rewrite Hvm.
    + rewrite get_block_name_ver by done. by rewrite Hget.
  - intros name hdu Hn Hname Hget Honce.
    destruct (getitem_found _ (KeyName name) _ Hname Hget) as (Hin & Hnm & _).
    split; [|done].
    rewrite (get_source_of_wrapper _ _ _ (st_next s) hdu _ (allocated s)); try done.
    rewrite get_block_name by done. by rewrite Hget.
Qed.

Lemma get_source_canonical_witness :
  ((b ← EmbeddedBlockManager.get_block BlockManager.as_manager Scenario.hdulist
          (SrcStr ("fits:" +:+ "SCI" +:+ "," +:+ "001"));
    EmbeddedBlockManager.get_source BlockManager.as_manager Scenario.hdulist b)
     Scenario.empty
   = (inr (SrcStr ("fits:" +:+ hdu_name Scenario.sci +:+ ","
                   +:+ pretty (int_of_digits "001"))),
      allocated Scenario.empty)
   /\ (normalise (hdu_name Scenario.sci) = "SCI" \/
       ("SCI" = "PRIMARY" /\ nth_error Scenario.hdulist 0 = Some Scenario.sci)))
  /\ ((b ← EmbeddedBlockManager.get_block BlockManager.as_manager
              [Scenario.sci; Scenario.late_primary]
              (SrcStr ("fits:" +:+ "PRIMARY" +:+ "," +:+ "1"));
        EmbeddedBlockManager.get_source BlockManager.as_manager
          [Scenario.sci; Scenario.late_primary] b)
         Scenario.empty
       = (inr (SrcStr ("fits:" +:+ hdu_name Scenario.sci +:+ ","
                       +:+ pretty (int_of_digits "1"))),
          allocated Scenario.empty)
       /\ (normalise (hdu_name Scenario.sci) = "PRIMARY" \/
           ("PRIMARY" = "PRIMARY" /\
            nth_error [Scenario.sci; Scenario.late_primary] 0 = Some Scenario.sci)))
  /\ ((b ← EmbeddedBlockManager.get_block BlockManager.as_manager
              [Scenario.primary; Scenario.lower_case]
              (SrcStr ("fits:" +:+ "SCI"));
        EmbeddedBlockManager.get_source BlockManager.as_manager
          [Scenario.primary; Scenario.lower_case] b)
         Scenario.empty
       = (inr (SrcStr ("fits:" +:+ hdu_name Scenario.lower_case +:+ ","
                       +:+ pretty (hdu_ver Scenario.lower_case))),
          allocated Scenario.empty)
       /\ (normalise (hdu_name Scenario.lower_case) = "SCI" \/
           ("SCI" = "PRIMARY" /\
            nth_error [Scenario.primary; Scenario.lower_case] 0
            = Some Scenario.lower_case))).
Proof.
  split; [|split].
  - apply (proj1 (get_source_canonical BlockManager.as_manager Scenario.hdulist
                    Scenario.empty) "SCI" "001" Scenario.sci);
      [done|reflexivity|done|reflexivity|reflexivity|].
    intros h [<-|[<-|[]]] Hid; [discriminate Hid|reflexivity].
  - apply (proj1 (get_source_canonical BlockManager.as_manager
                    [Scenario.sci; Scenario.late_primary] Scenario.empty)
             "PRIMARY" "1" Scenario.sci);
      [done|reflexivity|done|reflexivity|reflexivity|].
    intros h [<-|[<-|[]]] Hid; [reflexivity|discriminate Hid].
  - apply (proj2 (get_source_canonical BlockManager.as_manager
                    [Scenario.primary; Scenario.lower_case] Scenario.empty)
             "SCI" Scenario.lower_case);
      [done|reflexivity|reflexivity|].
    intros h [<-|[<-|[]]] Hid; [discriminate Hid|reflexivity].
Defined.

Example get_source_canonical_sci :
  (b ← EmbeddedBlockManager.get_block BlockManager.as_manager Scenario.hdulist
         (SrcStr "fits:SCI,001");
   EmbeddedBlockManager.get_source BlockManager.as_manager Scenario.hdulist b)
    Scenario.empty
  = (inr (SrcStr "fits:SCI,1"), allocated Scenario.empty).
Proof. reflexivity. Qed.

(** ** Names of sections are told apart *)

Section Delimited.
Implicit Types (a b c d : string) (x : ascii).

Lemma append_inj_l a b c : a +:+ b = a +:+ c -> b = c.
Proof.
  induction a as [|x a IH]; [done|]. rewrite !append_cons. intros [= H]. auto.
Qed.

Lemma length_append a b :
  String.length (a +:+ b) = (String.length a + String.length b)%nat.
Proof. induction a as [|x a IH]; [done|]. rewrite append_cons. simpl. by rewrite IH. Qed.

Lemma append_inj_r a b c : a +:+ c = b +:+ c -> a = b.
Proof.
  revert b. induction a as [|x a IH]; intros [|y b] H; [done| | |].
  - apply (f_equal String.length) in H. rewrite !length_append in H.
    simpl in H. lia.
  - apply (f_equal String.length) in H. rewrite !length_append in H.
    simpl in H. lia.
  - rewrite !append_cons in H. injection H as -> H. by rewrite (IH b H).
Qed.

Lemma comma_free_comma a b : comma_free (a +:+ String "," b) = false.
Proof.
  unfold comma_free. rewrite all_in_app. simpl. by rewrite andb_false_r.
Qed.

Lemma append_nil_l a : "" +:+ a = a.
Proof. reflexivity. Qed.

(** A string is split at its last comma in one way only. *)
Lemma last_comma_inj a a' d d' :
  comma_free d = true -> comma_free d' = true ->
  a +:+ "," +:+ d = a' +:+ "," +:+ d' -> a = a' /\ d = d'.
Proof.
  intros Hd Hd'. revert a'. induction a as [|x a IH]; intros [|y a'] H;
    repeat (rewrite append_cons in H || rewrite append_nil_l in H).
  - by injection H.
  - injection H as <- H. subst d. by rewrite comma_free_comma in Hd.
  - injection H as -> H. subst d'. by rewrite comma_free_comma in Hd'.
  - injection H as -> H. destruct (IH a' H) as [-> ->]. done.
Qed.

Lemma comma_free_digits d : all_in is_digit d = true -> comma_free d = true.
Proof.
  induction d as [|x d IH]; [done|]. simpl.
  intros [Hx Hd]%andb_true_iff. unfold comma_free. simpl.
  apply andb_true_iff. split; [|by apply IH].
  unfold is_digit in Hx. unfold not_comma.
  destruct (Nat.eqb_spec (nat_of_ascii x) 44) as [Heq|]; [|done].
  by rewrite Heq in Hx.
Qed.

Lemma comma_free_pretty (v : Z) : comma_free (pretty v) = true.
Proof.
  destruct v as [|p|p].
  - done.
  - apply comma_free_digits. by apply (pretty_nonneg_digits (Z.pos p)).
  - change (pretty (Z.neg p)) with ("-" +:+ pretty (Z.pos p)).
    unfold comma_free. rewrite all_in_app. simpl.
    apply comma_free_digits. by apply (pretty_nonneg_digits (Z.pos p)).
Qed.

Lemma name_ver_inj (n n' : string) (v v' : Z) (tail : string) :
  comma_free tail = true ->
  n +:+ "," +:+ pretty v +:+ tail = n' +:+ "," +:+ pretty v' +:+ tail ->
  n = n' /\ v = v'.
Proof.
  intros Htail H. apply last_comma_inj in H as [-> H].
  - split; [done|]. apply append_inj_r in H. by apply (inj pretty).
  - unfold comma_free. rewrite all_in_app.
    by rewrite (comma_free_pretty v : all_in _ _ = true).
  - unfold comma_free. rewrite all_in_app.
    by rewrite (comma_free_pretty v' : all_in _ _ = true).
Qed.
End Delimited.

(** X4.  Two wrappers of sections that the container holds get the same
    source from [get_source] only if the sections have the same name and the
    same version, whatever characters the names have; and the same holds of
    their [repr]. *)
Theorem get_source_injective (super : manager) (hdulist : HDUList) (s : state)
    (i1 i2 : oid) (u1 u2 h1 h2 : HDU) :
  find_hdu_is hdulist (hdu_id u1) = Some h1 ->
  find_hdu_is hdulist (hdu_id u2) = Some h2 ->
  (EmbeddedBlockManager.get_source super hdulist (FitsBlock i1 u1) s
   = EmbeddedBlockManager.get_source super hdulist (FitsBlock i2 u2) s
   <-> hdu_name h1 = hdu_name h2 /\ hdu_ver h1 = hdu_ver h2) /\
  (FitsBlock_repr h1 = FitsBlock_repr h2
   <-> hdu_name h1 = hdu_name h2 /\ hdu_ver h1 = hdu_ver h2).
Proof.
  intros H1 H2. simpl. rewrite H1, H2. split; split.
  - intros [= H]. unfold format_fits in H. apply append_inj_l in H.
    apply (name_ver_inj _ _ _ _ ""); [done|]. by rewrite !append_nil_r.
  - by intros [-> ->].
  - unfold FitsBlock_repr. intros H%append_inj_l. by apply name_ver_inj in H.
  - unfold FitsBlock_repr. by intros [-> ->].
Qed.

Lemma get_source_injective_witness :
  (EmbeddedBlockManager.get_source BlockManager.as_manager
     [Scenario.primary; Scenario.sci; Scenario.sci_data]
     (FitsBlock 19 Scenario.sci) Scenario.empty
   = EmbeddedBlockManager.get_source BlockManager.as_manager
       [Scenario.primary; Scenario.sci; Scenario.sci_data]
       (FitsBlock 18 Scenario.sci_data) Scenario.empty
   <-> hdu_name Scenario.sci = hdu_name Scenario.sci_data
       /\ hdu_ver Scenario.sci = hdu_ver Scenario.sci_data) /\
  (FitsBlock_repr Scenario.sci = FitsBlock_repr Scenario.sci_data
   <-> hdu_name Scenario.sci = hdu_name Scenario.sci_data
       /\ hdu_ver Scenario.sci = hdu_ver Scenario.sci_data).
Proof.
  exact (get_source_injective BlockManager.as_manager
           [Scenario.primary; Scenario.sci; Scenario.sci_data] Scenario.empty
           19%nat 18%nat Scenario.sci Scenario.sci_data Scenario.sci Scenario.sci_data
           eq_refl eq_refl).
Defined.

(** ** Wrappers are not kept *)

(** X5.  [get_block] keeps no wrapper: when a source of the scheme resolves,
    resolving it again gives another object around the same HDU. *)
Theorem get_block_never_cached (super : manager) (hdulist : HDUList)
    (rest : string) (parts : re_groups) (s s1 : state) (b1 : block) :
  re_match_source rest = Some parts ->
  EmbeddedBlockManager.get_block super hdulist (SrcStr ("fits:" +:+ rest)) s
  = (inr b1, s1) ->
  exists (b2 : block) (s2 : state) (hdu : HDU),
    EmbeddedBlockManager.get_block super hdulist (SrcStr ("fits:" +:+ rest)) s1
    = (inr b2, s2) /\
    block_id b2 <> block_id b1 /\
    block_hdu b1 = Some hdu /\ block_hdu b2 = Some hdu.
Proof.
  intros Hm. rewrite !(get_block_matched _ _ _ _ _ Hm).
  destruct (hdulist_getitem hdulist _) as [e|hdu]; [done|].
  intros [= <- <-]. eexists _, _, hdu. split; [done|]. simpl. split; [lia|done].
Qed.

Lemma get_block_never_cached_witness :
  exists (b2 : block) (s2 : state) (hdu : HDU),
    EmbeddedBlockManager.get_block BlockManager.as_manager Scenario.hdulist
      (SrcStr ("fits:" +:+ "SCI,1")) (allocated Scenario.empty)
    = (inr b2, s2) /\
    block_id b2 <> block_id (FitsBlock 20 Scenario.sci) /\
    block_hdu (FitsBlock 20 Scenario.sci) = Some hdu /\ block_hdu b2 = Some hdu.
Proof.
  exact (get_block_never_cached BlockManager.as_manager Scenario.hdulist "SCI,1"
           {| group_name := "SCI"; group_ver := Some "1" |}
           Scenario.empty (allocated Scenario.empty) (FitsBlock 20 Scenario.sci)
           eq_refl eq_refl).
Defined.

(** ** What an update does to the container *)

Section UpdateOutcome.
Variable super : document_class.
Variable base : manager.
Variable ctx : options.
Implicit Types (self : AsdfInFits.t).

(** The container after [hdu.data = array] on the section [old]. *)
Local Abbreviation replaced old array hdulist :=
  (List.map (fun h => if bool_decide (hdu_id h = hdu_id old)
                      then AsdfInFits.with_data array h else h) hdulist).

(** A successful [_update_asdf_extension] was a successful serialization, and
    the container is the old one with the data of the designated section
    replaced, or with a new section [ASDF], version 1, at its end. *)
Lemma update_outcome self self' :
  AsdfInFits._update_asdf_extension super base ctx self = (inr tt, self') ->
  exists payload st,
    cls_write_to super (AsdfInFits._blocks base (AsdfInFits._hdulist self)) ctx
      (AsdfInFits.asdf self) = (inr payload, st) /\
    AsdfInFits.asdf self' = match hdulist_getitem (AsdfInFits._hdulist self)
                                    (KeyName "ASDF") with
                            | inr _ => allocated st
                            | inl _ => allocated (allocated st)
                            end /\
    AsdfInFits.files self' = AsdfInFits.files self /\
    match hdulist_getitem (AsdfInFits._hdulist self) (KeyName "ASDF") with
    | inr old =>
        normalise (hdu_name old) = "ASDF" /\
        AsdfInFits._hdulist self'
        = replaced old {| nd_id := st_next st; nd_bytes := payload |}
            (AsdfInFits._hdulist self)
    | inl _ =>
        (forall h, In h (AsdfInFits._hdulist self) ->
                   normalise (hdu_name h) <> "ASDF") /\
        AsdfInFits._hdulist self'
        = (AsdfInFits._hdulist self ++
           [ {| hdu_id := S (st_next st); hdu_name := "ASDF"; hdu_ver := 1;
                hdu_data := {| nd_id := st_next st; nd_bytes := payload |} |} ])%list
    end.
Proof.
  destruct (cls_write_to super (AsdfInFits._blocks base (AsdfInFits._hdulist self))
              ctx (AsdfInFits.asdf self)) as [[e|payload] st] eqn:Hser.
  { by rewrite (update_failure _ _ _ _ _ _ Hser). }
  intros Hupd. exists payload, st. split; [done|].
  destruct (hdulist_getitem (AsdfInFits._hdulist self) (KeyName "ASDF"))
    as [e|old] eqn:Hget.
  - rewrite (update_create _ _ _ _ _ _ _ Hser Hget) in Hupd.
    injection Hupd as <-. split_and!; try done.
    by eapply getitem_ASDF_absent.
  - rewrite (update_replace _ _ _ _ _ _ _ Hser Hget) in Hupd.
    injection Hupd as <-. split_and!; try done.
    by destruct (getitem_ASDF_name _ _ Hget).
Qed.
End UpdateOutcome.

Section AfterUpdate.
Variable super : document_class.
Variable base : manager.
Variable ctx : options.
Variables self self' : AsdfInFits.t.
Hypothesis Hupdate : AsdfInFits.update super base ctx self = (inr tt, self').

(** A search of the container that looks at the identity, name and version
    of a section only finds, after the update, the section it found before. *)
Lemma update_preserves_find (f : HDU -> bool) (h : HDU) :
  (forall array x, f (AsdfInFits.with_data array x) = f x) ->
  List.find f (AsdfInFits._hdulist self) = Some h ->
  exists h',
    List.find f (AsdfInFits._hdulist self') = Some h' /\
    hdu_id h' = hdu_id h /\ hdu_name h' = hdu_name h /\ hdu_ver h' = hdu_ver h /\
    ((forall old, hdulist_getitem (AsdfInFits._hdulist self) (KeyName "ASDF")
                  = inr old -> hdu_id h <> hdu_id old) ->
     h' = h).
Proof.
  intros Hf Hfind.
  destruct (update_outcome _ _ _ _ _ Hupdate) as (payload & st & _ & _ & _ & Hlist).
  destruct (hdulist_getitem (AsdfInFits._hdulist self) (KeyName "ASDF"))
    as [e|old] eqn:Hget.
  - destruct Hlist as [_ ->]. exists h. rewrite find_snoc, Hfind. done.
  - destruct Hlist as [_ ->]. rewrite find_map_preserving, Hfind; simpl.
    + eexists. split; [done|].
      destruct (bool_decide (hdu_id h = hdu_id old)) eqn:Hid; simpl.
      * split_and!; try done. intros Hother.
        apply bool_decide_eq_true in Hid. by destruct (Hother old).
      * done.
    + intros x. by destruct (bool_decide (hdu_id x = hdu_id old)).
Qed.

(** The lookup of the container gives, after the update, the section it gave
    before. *)
Lemma update_preserves_getitem (k : hdu_key) (h : HDU) :
  hdulist_getitem (AsdfInFits._hdulist self) k = inr h ->
  exists h',
    hdulist_getitem (AsdfInFits._hdulist self') k = inr h' /\
    hdu_id h' = hdu_id h /\ hdu_name h' = hdu_name h /\ hdu_ver h' = hdu_ver h /\
    ((forall old, hdulist_getitem (AsdfInFits._hdulist self) (KeyName "ASDF")
                  = inr old -> hdu_id h <> hdu_id old) ->
     h' = h).
Proof.
  intros Hk.
  destruct (update_outcome _ _ _ _ _ Hupdate) as (payload & st & _ & _ & _ & Hlist).
  destruct (hdulist_getitem (AsdfInFits._hdulist self) (KeyName "ASDF"))
    as [e|old] eqn:Hget.
  - destruct Hlist as [_ ->]. exists h. by rewrite getitem_append, Hk.
  - destruct Hlist as [_ ->]. rewrite getitem_set_data, Hk.
    eexists. split; [done|].
    destruct (bool_decide (hdu_id h = hdu_id old)) eqn:Hid; simpl.
    + split_and!; try done. intros Hother.
      apply bool_decide_eq_true in Hid. by destruct (Hother old).
    + done.
Qed.

(** After the update the container has a section for the name [ASDF]. *)
Lemma update_has_extension :
  exists payload st h,
    cls_write_to super (AsdfInFits._blocks base (AsdfInFits._hdulist self)) ctx
      (AsdfInFits.asdf self) = (inr payload, st) /\
    hdulist_getitem (AsdfInFits._hdulist self') (KeyName "ASDF") = inr h /\
    nd_bytes (hdu_data h) = payload.
Proof.
  destruct (update_outcome _ _ _ _ _ Hupdate)
    as (payload & st & Hser & _ & _ & Hlist).
  exists payload, st.
  destruct (hdulist_getitem (AsdfInFits._hdulist self) (KeyName "ASDF"))
    as [e|old] eqn:Hget; destruct Hlist as [Hname ->].
  - eexists. split; [done|]. rewrite getitem_append, Hget.
    rewrite answers_named; [split; [reflexivity|done]|done|done].
  - eexists. split; [done|]. rewrite getitem_set_data, Hget.
    rewrite bool_decide_eq_true_2 by done. split; [reflexivity|done].
Qed.
End AfterUpdate.

(** X6.  An update does not change the source of a wrapper: for every wrapper
    of a section that the container held, [get_source] succeeds before a
    successful [update] and after it, in whatever state of the document and
    under whatever base manager, and gives the same source both times. *)
Theorem get_source_after_update
    (super : document_class) (base : manager) (ctx : options)
    (self self' : AsdfInFits.t) :
  AsdfInFits.update super base ctx self = (inr tt, self') ->
  forall (sup sup' : manager) (i : oid) (u : HDU) (s s' : state),
    (exists h, In h (AsdfInFits._hdulist self) /\ hdu_id h = hdu_id u) ->
    exists src : source,
      EmbeddedBlockManager.get_source sup (AsdfInFits._hdulist self)
        (FitsBlock i u) s = (inr src, s) /\
      EmbeddedBlockManager.get_source sup' (AsdfInFits._hdulist self')
        (FitsBlock i u) s' = (inr src, s').
Proof.
  intros Hupd sup sup' i u s s' (h & Hin & Hid).
  destruct (find_first_match (fun x => bool_decide (hdu_id x = hdu_id u))
              (AsdfInFits._hdulist self) h Hin) as (h0 & Hfind & _ & _).
  { by apply bool_decide_eq_true. }
  destruct (update_preserves_find _ _ _ _ _ Hupd
              (fun x => bool_decide (hdu_id x = hdu_id u)) h0)
    as (h' & Hfind' & _ & Hname & Hver & _); [done..|].
  exists (SrcStr (format_fits (hdu_name h0) (hdu_ver h0))).
  simpl. unfold find_hdu_is. by rewrite Hfind, Hfind', Hname, Hver.
Qed.

Lemma get_source_after_update_witness :
  exists self' src,
    AsdfInFits.update Scenario.cls BlockManager.as_manager Scenario.defaults
      Scenario.embedded = (inr tt, self') /\
    EmbeddedBlockManager.get_source BlockManager.as_manager
      (AsdfInFits._hdulist Scenario.embedded) (FitsBlock 19 Scenario.asdf_hdu)
      (AsdfInFits.asdf Scenario.embedded)
    = (inr src, AsdfInFits.asdf Scenario.embedded) /\
    EmbeddedBlockManager.get_source BlockManager.as_manager
      (AsdfInFits._hdulist self') (FitsBlock 19 Scenario.asdf_hdu)
      (AsdfInFits.asdf self')
    = (inr src, AsdfInFits.asdf self').
Proof.
  eexists.
  destruct (get_source_after_update Scenario.cls BlockManager.as_manager
              Scenario.defaults Scenario.embedded _ eq_refl
              BlockManager.as_manager BlockManager.as_manager 19%nat
              Scenario.asdf_hdu (AsdfInFits.asdf Scenario.embedded)
              (allocated (allocated Scenario.one_array)))
    as (src & H).
  { exists Scenario.asdf_hdu. simpl. auto. }
  exists src. split; [reflexivity|exact H].
Defined.

(** X7.  An update does not redirect a source: a source of the scheme that
    resolved to a wrapper before a successful [update] resolves afterwards to
    a wrapper of the section with the same identity, name and version, and to
    the very same section unless it is the one that holds the payload. *)
Theorem get_block_after_update
    (super : document_class) (base : manager) (ctx : options)
    (self self' : AsdfInFits.t) :
  AsdfInFits.update super base ctx self = (inr tt, self') ->
  forall (sup : manager) (rest : string) (parts : re_groups)
         (s s1 : state) (i : oid) (hdu : HDU),
    re_match_source rest = Some parts ->
    EmbeddedBlockManager.get_block sup (AsdfInFits._hdulist self)
      (SrcStr ("fits:" +:+ rest)) s = (inr (FitsBlock i hdu), s1) ->
    exists hdu',
      EmbeddedBlockManager.get_block sup (AsdfInFits._hdulist self')
        (SrcStr ("fits:" +:+ rest)) s = (inr (FitsBlock i hdu'), s1) /\
      hdu_id hdu' = hdu_id hdu /\ hdu_name hdu' = hdu_name hdu /\
      hdu_ver hdu' = hdu_ver hdu /\
      ((forall old, hdulist_getitem (AsdfInFits._hdulist self) (KeyName "ASDF")
                    = inr old -> hdu_id hdu <> hdu_id old) ->
       hdu' = hdu).
Proof.
  intros Hupd sup rest parts s s1 i hdu Hm.
  rewrite !(get_block_matched _ _ _ _ _ Hm).
  destruct (hdulist_getitem (AsdfInFits._hdulist self) _) as [e|h] eqn:Hk; [done|].
  intros [= <- <- <-].
  destruct (update_preserves_getitem _ _ _ _ _ Hupd _ h Hk)
    as (h' & Hk' & Hid & Hname & Hver & Hsame).
  exists h'. by rewrite Hk'.
Qed.

Lemma get_block_after_update_witness :
  exists self' hdu',
    AsdfInFits.update Scenario.cls BlockManager.as_manager Scenario.defaults
      Scenario.embedded = (inr tt, self') /\
    EmbeddedBlockManager.get_block BlockManager.as_manager
      (AsdfInFits._hdulist self') (SrcStr ("fits:" +:+ "SCI,1")) Scenario.empty
    = (inr (FitsBlock 20 hdu'), allocated Scenario.empty) /\
    hdu_id hdu' = hdu_id Scenario.sci /\ hdu_name hdu' = hdu_name Scenario.sci /\
    hdu_ver hdu' = hdu_ver Scenario.sci /\
    ((forall old,
         hdulist_getitem (AsdfInFits._hdulist Scenario.embedded) (KeyName "ASDF")
         = inr old -> hdu_id Scenario.sci <> hdu_id old) ->
     hdu' = Scenario.sci).
Proof.
  eexists.
  destruct (get_block_after_update Scenario.cls BlockManager.as_manager
              Scenario.defaults Scenario.embedded _ eq_refl
              BlockManager.as_manager "SCI,1"
              {| group_name := "SCI"; group_ver := Some "1" |}
              Scenario.empty (allocated Scenario.empty) 20%nat Scenario.sci
              eq_refl eq_refl) as (hdu' & H).
  exists hdu'. split; [reflexivity|exact H].
Defined.

(** X8.  Once an update has succeeded the container has its [ASDF] section,
    and later updates keep the sections of the container: whatever the
    document has become, a further successful [update] of that container
    leaves the same sections in the same order, with their identities, names
    and versions. *)
Theorem update_again
    (super : document_class) (base : manager) (ctx : options)
    (self self1 : AsdfInFits.t) :
  AsdfInFits.update super base ctx self = (inr tt, self1) ->
  forall (super' : document_class) (base' : manager) (ctx' : options)
         (self2 self3 : AsdfInFits.t),
    AsdfInFits._hdulist self2 = AsdfInFits._hdulist self1 ->
    AsdfInFits.update super' base' ctx' self2 = (inr tt, self3) ->
    length (AsdfInFits._hdulist self3) = length (AsdfInFits._hdulist self1) /\
    List.map hdu_id (AsdfInFits._hdulist self3)
    = List.map hdu_id (AsdfInFits._hdulist self1) /\
    List.map hdu_name (AsdfInFits._hdulist self3)
    = List.map hdu_name (AsdfInFits._hdulist self1) /\
    List.map hdu_ver (AsdfInFits._hdulist self3)
    = List.map hdu_ver (AsdfInFits._hdulist self1).
Proof.
  intros Hupd super' base' ctx' self2 self3 Hsame Hupd'.
  destruct (update_has_extension _ _ _ _ _ Hupd) as (_ & _ & h & _ & Hget & _).
  destruct (update_outcome _ _ _ _ _ Hupd') as (payload & st & _ & _ & _ & Hlist).
  rewrite Hsame, Hget in Hlist. destruct Hlist as [_ ->].
  rewrite List.length_map, !List.map_map. split_and!; [done|..];
    apply List.map_ext; intros x; by destruct (bool_decide _).
Qed.

Lemma update_again_witness :
  exists self1 self3,
    AsdfInFits.update Scenario.cls BlockManager.as_manager Scenario.defaults
      Scenario.self = (inr tt, self1) /\
    AsdfInFits.update Scenario.cls BlockManager.as_manager Scenario.defaults
      self1 = (inr tt, self3) /\
    length (AsdfInFits._hdulist self3) = length (AsdfInFits._hdulist self1) /\
    List.map hdu_id (AsdfInFits._hdulist self3)
    = List.map hdu_id (AsdfInFits._hdulist self1) /\
    List.map hdu_name (AsdfInFits._hdulist self3)
    = List.map hdu_name (AsdfInFits._hdulist self1) /\
    List.map hdu_ver (AsdfInFits._hdulist self3)
    = List.map hdu_ver (AsdfInFits._hdulist self1).
Proof.
  eexists _, _. split; [reflexivity|]. split; [reflexivity|].
  exact (update_again Scenario.cls BlockManager.as_manager Scenario.defaults
           Scenario.self _ eq_refl
           Scenario.cls BlockManager.as_manager Scenario.defaults _ _
           eq_refl eq_refl).
Defined.

(** X9.  What an update stores is what a read decodes: when the base class
    serializes the document to [payload], [update] succeeds, and [read] on the
    container it leaves hands exactly [payload] to [_read_impl], together with
    a new document bound to that container. *)
Theorem read_after_update
    (super : document_class) (base : manager) (ctx : options)
    (self : AsdfInFits.t) (payload : list Byte.byte) (st : state) :
  cls_write_to super (AsdfInFits._blocks base (AsdfInFits._hdulist self)) ctx
    (AsdfInFits.asdf self) = (inr payload, st) ->
  exists self',
    AsdfInFits.update super base ctx self = (inr tt, self') /\
    forall (reader : document_class) (next : oid) (uri : option string)
           (validate_checksums : bool) (fs : list (string * HDUList)),
      AsdfInFits.read reader next (AsdfInFits._hdulist self') uri
        validate_checksums fs
      = match cls_read_impl reader (AsdfFile.init next None None)
                (AsdfInFits._hdulist self') payload uri validate_checksums with
        | inr st' => inr {| AsdfInFits.asdf := st';
                            AsdfInFits._hdulist := AsdfInFits._hdulist self';
                            AsdfInFits.files := fs |}
        | inl e => inl e
        end.
Proof.
  intros Hser.
  destruct (AsdfInFits.update super base ctx self) as [[e|[]] self'] eqn:Hupd.
  { unfold AsdfInFits.update in Hupd.
    destruct (hdulist_getitem (AsdfInFits._hdulist self) (KeyName "ASDF")) eqn:Hget.
    - by rewrite (update_create _ _ _ _ _ _ _ Hser Hget) in Hupd.
    - by rewrite (update_replace _ _ _ _ _ _ _ Hser Hget) in Hupd. }
  exists self'. split; [done|]. intros reader next uri v fs.
  destruct (update_has_extension _ _ _ _ _ Hupd) as (p & st0 & h & Hser' & Hget & Hp).
  rewrite Hser in Hser'. injection Hser' as <- <-.
  unfold AsdfInFits.read.
  change (KeyName AsdfInFits.ASDF_EXTENSION_NAME) with (KeyName "ASDF").
  rewrite Hget. simpl. by rewrite Hp.
Qed.

Lemma read_after_update_witness :
  exists self',
    AsdfInFits.update Scenario.cls BlockManager.as_manager Scenario.defaults
      Scenario.embedded = (inr tt, self') /\
    forall (reader : document_class) (next : oid) (uri : option string)
           (validate_checksums : bool) (fs : list (string * HDUList)),
      AsdfInFits.read reader next (AsdfInFits._hdulist self') uri
        validate_checksums fs
      = match cls_read_impl reader (AsdfFile.init next None None)
                (AsdfInFits._hdulist self') ["#"%byte] uri validate_checksums with
        | inr st' => inr {| AsdfInFits.asdf := st';
                            AsdfInFits._hdulist := AsdfInFits._hdulist self';
                            AsdfInFits.files := fs |}
        | inl e => inl e
        end.
Proof.
  exact (read_after_update Scenario.cls BlockManager.as_manager Scenario.defaults
           Scenario.embedded ["#"%byte] (allocated Scenario.one_array) eq_refl).
Defined.

(** ** A document made without a container *)

(** X10.  [AsdfInFits()] without a container starts from an empty [HDUList].
    Over it every wrapper counts as removed, every source of the scheme
    raises [KeyError], every array goes to the base manager, reading the
    container gives an empty document, and the first successful update makes
    the section [ASDF], version 1, the only section of the container. *)
Theorem no_container
    (next : oid) (tr : option tree) (uri : option string)
    (fs : list (string * HDUList)) :
  let self := AsdfInFits.init next None tr uri fs in
  AsdfInFits._hdulist self = [] /\
  (forall (sup : manager) (i : oid) (u : HDU) (s : state),
      EmbeddedBlockManager.get_source sup (AsdfInFits._hdulist self) (FitsBlock i u) s
      = (inl (ValueError "FITS block seems to have been removed"), s)) /\
  (forall (sup : manager) (rest : string) (parts : re_groups) (s : state),
      re_match_source rest = Some parts ->
      EmbeddedBlockManager.get_block sup (AsdfInFits._hdulist self)
        (SrcStr ("fits:" +:+ rest)) s = (inl KeyError, s)) /\
  (forall (sup : manager) (arr : array) (ctx : options) (s : state),
      EmbeddedBlockManager.find_or_create_block_for_array sup
        (AsdfInFits._hdulist self) arr ctx s
      = mgr_find_or_create_block_for_array sup arr ctx s) /\
  (forall (reader : document_class) (next' : oid) (uri' : option string)
          (validate_checksums : bool) (fs' : list (string * HDUList)),
      AsdfInFits.read reader next' (AsdfInFits._hdulist self) uri'
        validate_checksums fs'
      = inr (AsdfInFits.init next' (Some []) None uri' fs')) /\
  (forall (super : document_class) (base : manager) (ctx : options)
          (payload : list Byte.byte) (st : state),
      cls_write_to super (AsdfInFits._blocks base []) ctx (AsdfInFits.asdf self)
      = (inr payload, st) ->
      exists self',
        AsdfInFits.update super base ctx self = (inr tt, self') /\
        AsdfInFits._hdulist self'
        = [ {| hdu_id := S (st_next st); hdu_name := "ASDF"; hdu_ver := 1;
               hdu_data := {| nd_id := st_next st; nd_bytes := payload |} |} ]).
Proof.
  cbv zeta.
  change (AsdfInFits._hdulist (AsdfInFits.init next None tr uri fs))
    with (@nil HDU).
  split_and!; try done.
  - intros sup rest parts s Hm. by rewrite (get_block_matched _ _ _ _ _ Hm).
  - intros sup arr ctx s. rewrite find_or_create_hosted. unfold hosted. simpl.
    by destruct (arr_lazy arr).
  - intros super base ctx payload st Hser. eexists. unfold AsdfInFits.update.
    by rewrite (update_create super base ctx
                  (AsdfInFits.init next None tr uri fs) payload st KeyError
                  Hser eq_refl).
Qed.

Lemma no_container_witness :
  exists self',
    AsdfInFits.update Scenario.cls BlockManager.as_manager Scenario.defaults
      (AsdfInFits.init 20 None (Some (st_tree Scenario.one_array)) None [])
    = (inr tt, self') /\
    AsdfInFits._hdulist self'
    = [ {| hdu_id := 22; hdu_name := "ASDF"; hdu_ver := 1;
           hdu_data := {| nd_id := 21;
                          nd_bytes := ["#"%byte; "1"%byte; "2"%byte; "3"%byte] |} |} ].
Proof.
  destruct (no_container 20%nat (Some (st_tree Scenario.one_array)) None [])
    as (_ & _ & _ & _ & _ & Hupd).
  exact (Hupd Scenario.cls BlockManager.as_manager Scenario.defaults
           ["#"%byte; "1"%byte; "2"%byte; "3"%byte]
           {| st_next := 21; st_tree := st_tree Scenario.one_array; st_uri := None;
              st_blocks := [ {| blk_id := 20; blk_base := 10;
                                blk_data := nd_bytes Scenario.x;
                                blk_storage := Internal |} ] |}
           eq_refl).
Defined.

(** ** An array of the host, through its address and back *)

(** X11.  An array over the memory of a section comes back through its
    address: the block made for it is named [fits:NAME,VERSION], and that
    source resolves to a wrapper of the same section, whose data is the base
    of the array.  The section is the one the adapter wraps for the array; the
    container holds it once, under a name over [[A-Z0-9]] and a version that
    is not negative, and no other section of the container answers to that
    name and version in the lookup: none has that version with that name once
    stripped and in upper case, and when the name is [PRIMARY] the first
    section, if it is another one, has another version. *)
Theorem hosted_array_round_trip
    (super : manager) (hdulist : HDUList) (arr : array) (ctx : options)
    (s : state) (w : HDU) :
  hosted hdulist arr = Some w ->
  held_once hdulist w ->
  (forall h, In h hdulist -> normalise (hdu_name h) = hdu_name w ->
             hdu_ver h = hdu_ver w -> h = w) ->
  (hdu_name w = "PRIMARY" ->
   forall first rest, hdulist = first :: rest -> hdu_ver first = hdu_ver w ->
                      first = w) ->
  hdu_name w <> "" -> all_in is_upper_or_digit (hdu_name w) = true ->
  0 <= hdu_ver w ->
  named_once hdulist w /\
  (b ← EmbeddedBlockManager.find_or_create_block_for_array super hdulist arr ctx;
   src ← EmbeddedBlockManager.get_source super hdulist b;
   EmbeddedBlockManager.get_block super hdulist src) s
  = (inr (FitsBlock (S (st_next s)) w), allocated (allocated s)) /\
  nd_id (FitsBlock_data w) = nd_id (get_array_base arr).
Proof.
  intros Hh Hheld Huniq Hprimary Hn Hname Hver.
  assert (named_once hdulist w) as Hnamed.
  { intros idx h Hidx Ha. apply answers_inv in Ha as [Hnm Hv]. simpl in Hnm, Hv.
    rewrite (normalise_word (hdu_name w)) in Hnm by done.
    specialize (Hv _ eq_refl). destruct Hnm as [Hnm|[Hp ->]].
    - apply Huniq; [by eapply List.nth_error_In|done..].
    - destruct hdulist as [|first rest]; [done|]. injection Hidx as ->.
      by apply (Hprimary Hp h rest). }
  split; [done|].
  destruct (hosted_Some _ _ _ Hh) as (_ & Hin & Hal). split; [|done].
  destruct (pretty_nonneg_digits (hdu_ver w) Hver) as (Hne & Hdigits & Hint).
  unfold mbind, ST_bind. rewrite find_or_create_hosted, Hh. simpl.
  rewrite (held_once_find _ _ Hin Hheld). simpl.
  change (EmbeddedBlockManager.get_block super hdulist
            (SrcStr (format_fits (hdu_name w) (hdu_ver w))) (allocated s)
          = (inr (FitsBlock (S (st_next s)) w), allocated (allocated s))).
  unfold format_fits. rewrite get_block_name_ver by done. rewrite Hint.
  destruct (List.In_nth_error _ _ Hin) as [j Hj].
  destruct (index_of_from_found 0 (KeyNameVer (hdu_name w) (hdu_ver w))
              hdulist j w Hj) as [h Hfind].
  { apply answers_named; [done|]. simpl. by intros v [= <-]. }
  unfold hdulist_getitem. rewrite Hfind.
  apply index_of_from_Some in Hfind as (j' & Hj' & Ha & _).
  by rewrite (Hnamed _ h Hj' Ha).
Qed.

Lemma hosted_array_round_trip_witness :
  named_once Scenario.hdulist Scenario.sci /\
  (b ← EmbeddedBlockManager.find_or_create_block_for_array BlockManager.as_manager
         Scenario.hdulist Scenario.view_of_x Scenario.defaults;
   src ← EmbeddedBlockManager.get_source BlockManager.as_manager Scenario.hdulist b;
   EmbeddedBlockManager.get_block BlockManager.as_manager Scenario.hdulist src)
    Scenario.empty
  = (inr (FitsBlock 21 Scenario.sci), allocated (allocated Scenario.empty)) /\
  nd_id (FitsBlock_data Scenario.sci) = nd_id (get_array_base Scenario.view_of_x).
Proof.
  apply (hosted_array_round_trip BlockManager.as_manager Scenario.hdulist
           Scenario.view_of_x Scenario.defaults Scenario.empty Scenario.sci);
    [reflexivity| | | |done|reflexivity|done].
  - intros h [<-|[<-|[]]] Hid; [discriminate Hid|reflexivity].
  - intros h [<-|[<-|[]]] Hname Hver; [discriminate Hname|reflexivity].
  - intros Hname. discriminate Hname.
Defined.

(** ** Arrays that share the memory of a section *)

(** X12.  Arrays with one base are wrapped around one section: when the
    adapter wraps a section for an array, it wraps that same section, in a
    new wrapper, for every other array that is not an [NDArrayType] and has
    the same base, whatever the options and the state; and the two wrappers
    get the same source. *)
Theorem shared_base_same_section
    (super : manager) (hdulist : HDUList) (a1 a2 : array) (w : HDU) :
  hosted hdulist a1 = Some w ->
  arr_lazy a2 = false ->
  nd_id (get_array_base a2) = nd_id (get_array_base a1) ->
  forall (ctx1 ctx2 : options) (s1 s2 s : state),
    EmbeddedBlockManager.find_or_create_block_for_array super hdulist a1 ctx1 s1
    = (inr (FitsBlock (st_next s1) w), allocated s1) /\
    EmbeddedBlockManager.find_or_create_block_for_array super hdulist a2 ctx2 s2
    = (inr (FitsBlock (st_next s2) w), allocated s2) /\
    EmbeddedBlockManager.get_source super hdulist (FitsBlock (st_next s1) w) s
    = EmbeddedBlockManager.get_source super hdulist (FitsBlock (st_next s2) w) s.
Proof.
  intros Hh Hlazy Hbase ctx1 ctx2 s1 s2 s.
  assert (hosted hdulist a2 = Some w) as Hh2.
  { destruct (hosted_Some _ _ _ Hh) as (Hlazy1 & _ & _).
    unfold hosted in *. rewrite Hlazy1 in Hh. rewrite Hlazy, <- Hh.
    clear Hh. induction hdulist as [|h l IH]; [done|]. simpl.
    unfold aliases at 1 3. by rewrite Hbase, IH. }
  by rewrite !find_or_create_hosted, Hh, Hh2.
Qed.

Lemma shared_base_same_section_witness :
  EmbeddedBlockManager.find_or_create_block_for_array BlockManager.as_manager
    Scenario.hdulist Scenario.view_of_x Scenario.defaults Scenario.empty
  = (inr (FitsBlock 20 Scenario.sci), allocated Scenario.empty) /\
  EmbeddedBlockManager.find_or_create_block_for_array BlockManager.as_manager
    Scenario.hdulist
    {| arr_lazy := false; arr_value := Owner Scenario.x; arr_size := 3;
       arr_storage := Some Inline |}
    Scenario.defaults Scenario.two_blocks
  = (inr (FitsBlock 50 Scenario.sci), allocated Scenario.two_blocks) /\
  EmbeddedBlockManager.get_source BlockManager.as_manager Scenario.hdulist
    (FitsBlock 20 Scenario.sci) Scenario.empty
  = EmbeddedBlockManager.get_source BlockManager.as_manager Scenario.hdulist
      (FitsBlock 50 Scenario.sci) Scenario.empty.
Proof.
  exact (shared_base_same_section BlockManager.as_manager Scenario.hdulist
           Scenario.view_of_x
           {| arr_lazy := false; arr_value := Owner Scenario.x; arr_size := 3;
              arr_storage := Some Inline |}
           Scenario.sci eq_refl eq_refl eq_refl
           Scenario.defaults Scenario.defaults Scenario.empty Scenario.two_blocks
           Scenario.empty).
Defined.
